(** * brother_ql network backend: discovery and TCP transport

    A shallow embedding of [brother_ql/backends/network.py] together with
    the properties its design document states about it.

    Conventions of the embedding:
    - Python [str] values are Rocq strings, read as sequences of code
      points below 256; [bytes] values are lists of [Byte.byte].
    - Python [float] values (clock readings, socket timeouts) are binary64
      primitive floats; the integer literals [0], [5] and [10] that the
      source mixes with them are the floats of the same value.
    - Module globals, the attributes of a backend object and the outside
      world (network answers, logs of what was sent) are explicit states
      threaded through a state-and-exception monad.  *)

From Stdlib Require Import ZArith String Ascii List Bool Lia PrimFloat.
From stdpp Require Import base option list strings pretty gmap.

Set Warnings "-inexact-float,-register-all".
Local Open Scope Z_scope.
Local Open Scope string_scope.

(** ** Python values, exceptions and the small monad *)

Module Py.

(** The operating-system level reasons for which a socket call fails. *)
Inductive os_failure : Type :=
| ConnectionRefused
| HostUnreachable
| NameResolutionFailure
| BrokenPipe
| OtherErrno (errno : Z).

(** The exception classes the module raises, catches or lets through.
    [socket_timeout] (Python's [socket.timeout]) is a subclass of
    [OSError]; [ValueError] carries its [__cause__] when raised with
    [raise ... from e]. *)
Inductive exn : Type :=
| OSError (reason : os_failure)
| socket_timeout
| ValueError (msg : string) (cause : option exn)
| NotImplementedError (msg : string)
| OverflowError (msg : string)
| KeyError (key : string)
| UnboundLocalError (name : string)
| TimeoutTimerExpired.

(** [isinstance(e, OSError)]. *)
Definition is_OSError (e : exn) : bool :=
  match e with
  | OSError _ | socket_timeout => true
  | _ => false
  end.

(** [isinstance(e, socket.timeout)]. *)
Definition is_socket_timeout (e : exn) : bool :=
  match e with
  | socket_timeout => true
  | _ => false
  end.

(** [isinstance(e, TimeoutTimerExpired)]. *)
Definition is_TimeoutTimerExpired (e : exn) : bool :=
  match e with
  | TimeoutTimerExpired => true
  | _ => false
  end.

(** Outcome of a statement: a value or a raised exception. *)
Inductive result (A : Type) : Type :=
| Ok (a : A)
| Raise (e : exn).
Arguments Ok {A} a.
Arguments Raise {A} e.

(** Computations over a state [S] that may raise.  The state survives
    an exception, as the mutations of a Python object do. *)
Definition M (S A : Type) : Type := S -> result A * S.

Definition ret {S A} (a : A) : M S A := fun s => (Ok a, s).

Definition raise {S A} (e : exn) : M S A := fun s => (Raise e, s).

Definition bind {S A B} (m : M S A) (k : A -> M S B) : M S B :=
  fun s =>
    match m s with
    | (Ok a, s') => k a s'
    | (Raise e, s') => (Raise e, s')
    end.

Definition get_state {S} : M S S := fun s => (Ok s, s).

Definition modify {S} (f : S -> S) : M S unit := fun s => (Ok tt, f s).

(** [try: body / except <class>: handler], where [catches] decides
    whether the raised exception is an instance of the class. *)
Definition try_except {S A} (body : M S A) (catches : exn -> bool)
    (handler : exn -> M S A) : M S A :=
  fun s =>
    match body s with
    | (Ok a, s') => (Ok a, s')
    | (Raise e, s') => if catches e then handler e s' else (Raise e, s')
    end.

Module Notations.
  Notation "x <- m ;; k" := (bind m (fun x => k))
    (at level 100, m at next level, right associativity).
  Notation "m ;;; k" := (bind m (fun _ => k))
    (at level 100, right associativity).
End Notations.

(** *** Strings *)

(** [s.startswith(p)]. *)
Definition startswith (s p : string) : bool := String.prefix p s.

(** [s[n:]]. *)
Fixpoint slice_from (n : nat) (s : string) : string :=
  match n, s with
  | O, _ => s
  | S _, EmptyString => EmptyString
  | S n', String _ r => slice_from n' r
  end.

(** [s.partition(sep)] for a one-character separator: the text before
    the first occurrence, the separator, the text after it; when the
    separator does not occur, the whole string and two empty strings. *)
Fixpoint partition (sep : ascii) (s : string) : string * string * string :=
  match s with
  | EmptyString => (EmptyString, EmptyString, EmptyString)
  | String c r =>
      if Ascii.eqb c sep then (EmptyString, String sep EmptyString, r)
      else let '(h, m, t) := partition sep r in (String c h, m, t)
  end.

(** Truth value of a string: non-empty. *)
Definition truthy (s : string) : bool :=
  match s with
  | EmptyString => false
  | String _ _ => true
  end.

(** *** [int(str)] in base 10 *)

(** White space skipped by [int()] around the literal: the ASCII space
    characters, and NEL and NBSP among the code points from 128 to 255. *)
Definition int_space (c : ascii) : bool :=
  let n := nat_of_ascii c in
  ((9 <=? n) && (n <=? 13) || (n =? 32) || (n =? 133) || (n =? 160))%nat.

Definition is_digit (c : ascii) : bool :=
  let n := nat_of_ascii c in ((48 <=? n) && (n <=? 57))%nat.

Definition is_underscore (c : ascii) : bool := Ascii.eqb c "_"%char.

Definition digit_value (c : ascii) : Z := Z.of_nat (nat_of_ascii c) - 48.

Fixpoint skip_spaces (l : list ascii) : list ascii :=
  match l with
  | c :: r => if int_space c then skip_spaces r else l
  | [] => []
  end.

(** The literal proper: digits, single underscores allowed between two
    digits.  [prev_us] tells whether the previous character was an
    underscore; the result is the value read and the unread rest, or
    [None] when two underscores meet or one ends the literal. *)
Fixpoint scan_digits (acc : Z) (prev_us : bool) (l : list ascii)
  : option (Z * list ascii) :=
  match l with
  | c :: r =>
      if is_digit c then scan_digits (10 * acc + digit_value c) false r
      else if is_underscore c then
        if prev_us then None else scan_digits acc true r
      else if prev_us then None else Some (acc, l)
  | [] => if prev_us then None else Some (acc, [])
  end.

(** [int(s)]: [None] stands for the [ValueError] of an invalid literal. *)
Definition int (s : string) : option Z :=
  let l := skip_spaces (list_ascii_of_string s) in
  let '(sign, l) :=
    match l with
    | c :: r =>
        if Ascii.eqb c "+"%char then (1, r)
        else if Ascii.eqb c "-"%char then (-1, r)
        else (1, l)
    | [] => (1, l)
    end in
  match l with
  | c :: _ =>
      if is_digit c then
        match scan_digits 0 false l with
        | Some (v, rest) =>
            match skip_spaces rest with
            | [] => Some (sign * v)
            | _ :: _ => None
            end
        | None => None
        end
      else None
  | [] => None
  end.

End Py.

Import Py Py.Notations.

(** ** The abstracted SNMP helper module *)

Module quicksnmp.

(** One event seen by the dispatcher loop of a broadcast query: a
    datagram from [source] (an address and a port), or one turn of the
    loop at clock reading [timeNow]. *)
Inductive dispatch_event : Type :=
| Datagram (source : string * Z) (wholeMsg : list Byte.byte)
| TimerTick (timeNow : float).

(** Modelled from the spec: [quicksnmp.broadcastSNMPReq] is not among
    the sources.  It sends one request to the broadcast address, then
    calls [cbRecvFun] for every response received and [cbTimerFun] on
    each turn of the dispatcher loop, and stops when [maxResponses]
    responses have been observed or when a callback raises; the
    exception of a callback leaves the loop and reaches the caller.
    [events] is what the network and the clock present to the loop. *)
Fixpoint broadcastSNMPReq {S Msg : Type} (reqMsg : Msg)
    (cbRecvFun : string * Z -> list Byte.byte -> M S (list Byte.byte))
    (cbTimerFun : float -> M S unit)
    (maxResponses : nat) (events : list dispatch_event) : M S unit :=
  match maxResponses, events with
  | O, _ => ret tt
  | _, [] => ret tt
  | S remaining, Datagram source wholeMsg :: rest =>
      cbRecvFun source wholeMsg ;;;
      broadcastSNMPReq reqMsg cbRecvFun cbTimerFun remaining rest
  | S _, TimerTick timeNow :: rest =>
      cbTimerFun timeNow ;;;
      broadcastSNMPReq reqMsg cbRecvFun cbTimerFun maxResponses rest
  end.

(** What a unicast query comes back with: the values the device
    answered, by object identifier, or an exception. *)
Inductive reply : Type :=
| Answer (dataset : gmap string (list Byte.byte))
| Fails (e : exn).

End quicksnmp.

(** ** [brother_ql/backends/network.py] *)

Module network.

Import quicksnmp.

(** Some SNMP OID's that we can use to get printer information. *)
Definition brother_ql_snmp_oids : gmap string string :=
  list_to_map
    [ ("snmp_get_ip",       "1.3.6.1.4.1.1240.2.3.4.5.2.3.0");
      ("snmp_get_netmask",  "1.3.6.1.4.1.1240.2.3.4.5.2.4.0");
      ("snmp_get_mac",      "1.3.6.1.4.1.1240.2.3.4.5.2.4.0");
      ("snmp_get_location", "1.3.6.1.2.1.1.6.0");
      ("snmp_get_model",    "1.3.6.1.2.1.25.3.2.1.3.1");
      ("snmp_get_serial",   "1.3.6.1.2.1.43.5.1.1.17");
      ("snmp_get_status",   "1.3.6.1.4.1.2435.3.3.9.1.6.1.0") ].

(** [d[key]]: the value, or [KeyError]. *)
Definition getitem {S V} (d : gmap string V) (key : string) : M S V :=
  match d !! key with
  | Some v => ret v
  | None => raise (KeyError key)
  end.

Definition maxWaitForResponses : float := 5%float.
Definition maxNumberOfResponses : nat := 10.

(** The mutable module globals [startedAt] and [foundPrinters]. *)
Record globals : Type := {
  startedAt : float;
  foundPrinters : gset string
}.

(** The globals as the module leaves them when imported. *)
Definition imported : globals :=
  {| startedAt := 0%float; foundPrinters := ∅ |}.

(** An element of the list [list_available_devices] returns. *)
Record device : Type := {
  identifier : string;
  instance : option unit
}.

(** The request of [list_available_devices]: an SNMPv1 get of the
    listed object identifiers under the given community. *)
Record request : Type := {
  req_community : string;
  req_varbinds : list string
}.

(** Countdown callback to check if the requested wait time has elapsed.
    [startedAt] is read from the module globals. *)
Definition cbTimerFun (timeNow : float) : M globals unit :=
  g <- get_state ;;
  if PrimFloat.ltb maxWaitForResponses (PrimFloat.sub timeNow (startedAt g))
  then raise TimeoutTimerExpired
  else ret tt.

(** [f"{transportAddress[0]}:{transportAddress[1]}"]. *)
Definition endpoint (transportAddress : string * Z) : string :=
  fst transportAddress +:+ ":" +:+ pretty (snd transportAddress).

(** Receive data callback; of its four arguments the body uses the
    transport address and the message. *)
Definition cbRecvFun (transportAddress : string * Z)
    (wholeMsg : list Byte.byte) : M globals (list Byte.byte) :=
  modify (fun g => {| startedAt := startedAt g;
                      foundPrinters := {[ endpoint transportAddress ]} ∪ foundPrinters g |}) ;;;
  ret wholeMsg.

(** List all available devices for the network backend.  [now] is the
    reading [time()] returns, [events] what the dispatcher will see. *)
Definition list_available_devices (now : float)
    (events : list dispatch_event) : M globals (list device) :=
  oid_ip <- getitem brother_ql_snmp_oids "snmp_get_ip" ;;
  oid_status <- getitem brother_ql_snmp_oids "snmp_get_status" ;;
  let reqMsg := {| req_community := "public";
                   req_varbinds := [oid_ip; oid_status] |} in
  (* foundPrinters.clear() *)
  modify (fun g => {| startedAt := startedAt g; foundPrinters := ∅ |}) ;;;
  (* startedAt = time(): without a global declaration this binds a
     variable local to the function *)
  let startedAt_local := now in
  try_except
    (broadcastSNMPReq reqMsg cbRecvFun cbTimerFun maxNumberOfResponses events)
    is_TimeoutTimerExpired (fun _ => ret tt) ;;;
  g <- get_state ;;
  ret ((fun printer => {| identifier := "tcp://" +:+ printer;
                          instance := None |})
       <$> elements (foundPrinters g)).

(** *** The backend object *)

(** What a constructor argument can be: a string, or anything else
    (the docstring mentions a raw handle, i.e. an integer). *)
Inductive specifier : Type :=
| SpecStr (v : string)
| SpecHandle (fd : Z).

(** The state of a socket object. [sock_timeout = None] is a blocking
    socket, as created. *)
Record socket : Type := {
  sock_nodelay : bool;
  sock_peer : option (string * Z);
  sock_timeout : option float
}.

(** The outside world of a connection: how the network answers
    [connect], the successive [sendall] calls and the successive
    unicast queries, and a record of what has been asked of it. *)
Record world : Type := {
  connect_answer : string -> Z -> option os_failure;
  connect_log : list (string * Z);
  sendall_answer : nat -> option exn;
  sendall_log : list (option float * list Byte.byte);
  snmp_answer : nat -> reply;
  snmp_log : list (string * list string * string)
}.

Record BrotherQLBackendNetwork : Type := {
  read_timeout : float;
  strategy : string;
  host : string;
  s : socket
}.

(** A live connection: the object and the world it talks to. *)
Record conn : Type := {
  self : BrotherQLBackendNetwork;
  net : world
}.

Definition log_connect (w : world) (target : string * Z) : world :=
  {| connect_answer := connect_answer w;
     connect_log := connect_log w ++ [target];
     sendall_answer := sendall_answer w;
     sendall_log := sendall_log w;
     snmp_answer := snmp_answer w;
     snmp_log := snmp_log w |}.

Definition log_sendall (w : world) (entry : option float * list Byte.byte)
  : world :=
  {| connect_answer := connect_answer w;
     connect_log := connect_log w;
     sendall_answer := sendall_answer w;
     sendall_log := sendall_log w ++ [entry];
     snmp_answer := snmp_answer w;
     snmp_log := snmp_log w |}.

Definition log_snmp (w : world) (query : string * list string * string)
  : world :=
  {| connect_answer := connect_answer w;
     connect_log := connect_log w;
     sendall_answer := sendall_answer w;
     sendall_log := sendall_log w;
     snmp_answer := snmp_answer w;
     snmp_log := snmp_log w ++ [query] |}.

(** Whether the network's answer to a connection is that the host name
    does not resolve. *)
Definition is_resolution_failure (answer : option os_failure) : bool :=
  match answer with
  | Some NameResolutionFailure => true
  | _ => false
  end.

(** Whether an integer fits the C [int] that [connect] reads the port
    into. *)
Definition fits_c_int (n : Z) : bool :=
  Z.leb (-2147483648) n && Z.leb n 2147483647.

(** [sock.connect((host, port))], for a host name of ASCII characters
    other than NUL.  The arguments are read first: a port that does not
    fit a C [int] is refused.  Then the host is resolved: a name that
    does not resolve raises its [OSError] whatever the port.  Then a port
    outside 0..65535 is refused before any connection is tried.
    Otherwise the attempt is made and the network decides. *)
Definition socket_connect (sock : socket) (target : string * Z)
  : M world socket :=
  fun w =>
    let answer := connect_answer w (fst target) (snd target) in
    if negb (fits_c_int (snd target))
    then (Raise (OverflowError "connect(): port must be 0-65535."), w)
    else if is_resolution_failure answer
    then (Raise (OSError NameResolutionFailure), log_connect w target)
    else if Z.ltb (snd target) 0 || Z.ltb 65535 (snd target)
    then (Raise (OverflowError "connect(): port must be 0-65535."), w)
    else
      match answer with
      | None => (Ok {| sock_nodelay := sock_nodelay sock;
                       sock_peer := Some target;
                       sock_timeout := sock_timeout sock |},
                 log_connect w target)
      | Some reason => (Raise (OSError reason), log_connect w target)
      end.

(** [sock.settimeout(t)] on a socket value. *)
Definition with_timeout (sock : socket) (t : float) : socket :=
  {| sock_nodelay := sock_nodelay sock;
     sock_peer := sock_peer sock;
     sock_timeout := Some t |}.

(** The string branch of [__init__] up to the port: the scheme prefix
    is dropped, the rest is cut at its first colon, and the port is the
    integer read after it, or 9100 when nothing follows. *)
Definition host_and_port {S} (device_specifier : string)
  : M S (string * Z) :=
  let device_specifier :=
    if startswith device_specifier "tcp://"
    then slice_from 6 device_specifier
    else device_specifier in
  let '(host, _, port) := partition ":" device_specifier in
  port <- (if truthy port
           then match int port with
                | Some n => ret n
                | None => raise (ValueError
                    "invalid literal for int() with base 10" None)
                end
           else ret 9100) ;;
  ret (host, port).

Definition __init__ (device_specifier : specifier)
  : M world BrotherQLBackendNetwork :=
  let read_timeout := 0.01%float in
  (* strategy : try_twice, select or socket_timeout *)
  let strategy := "socket_timeout" in
  match device_specifier with
  | SpecStr device_specifier =>
      target <- host_and_port device_specifier ;;
      let '(host, port) := target in
      sock <- try_except
        (let sock := {| sock_nodelay := false; sock_peer := None;
                        sock_timeout := None |} in
         let sock := {| sock_nodelay := true; sock_peer := sock_peer sock;
                        sock_timeout := sock_timeout sock |} in
         socket_connect sock (host, port))
        is_OSError
        (fun e => raise (ValueError "Could not connect to the device."
                                    (Some e))) ;;
      let sock :=
        if String.eqb strategy "socket_timeout"
           || String.eqb strategy "try_twice"
        then with_timeout sock read_timeout
        else with_timeout sock 0%float in
      ret {| read_timeout := read_timeout; strategy := strategy;
             host := host; s := sock |}
  | SpecHandle _ =>
      raise (NotImplementedError
        "Currently the printer can be specified either via an appropriate string.")
  end.

(** [self.s.settimeout(t)]. *)
Definition settimeout (t : float) : M conn unit :=
  modify (fun c =>
    {| self := {| read_timeout := read_timeout (self c);
                  strategy := strategy (self c);
                  host := host (self c);
                  s := with_timeout (s (self c)) t |};
       net := net c |}).

(** [self.s.sendall(data)]: the world decides whether this call goes
    through; a call that does is recorded with the timeout in force. *)
Definition sendall (data : list Byte.byte) : M conn unit :=
  fun c =>
    let w := net c in
    match sendall_answer w (length (sendall_log w)) with
    | None =>
        (Ok tt, {| self := self c;
                   net := log_sendall w
                            (sock_timeout (s (self c)), data) |})
    | Some e => (Raise e, c)
    end.

Definition _write (data : list Byte.byte) : M conn unit :=
  settimeout 10%float ;;;
  sendall data ;;;
  c <- get_state ;;
  settimeout (read_timeout (self c)).

(** Modelled from the spec: [quicksnmp.get] is not among the sources.
    It makes one request-response exchange with [target] for the listed
    object identifiers and returns the mapping of those the device
    answered; a timeout reaches the caller as an exception.  The world
    supplies the outcome of each successive exchange. *)
Definition quicksnmp_get (target : string) (oids : list string)
    (credentials : string) : M conn (gmap string (list Byte.byte)) :=
  fun c =>
    let w := net c in
    let c' := {| self := self c;
                 net := log_snmp w (target, oids, credentials) |} in
    match snmp_answer w (length (snmp_log w)) with
    | Answer dataset => (Ok dataset, c')
    | Fails e => (Raise e, c')
    end.

(** The body of [for i in range(tries)] in [_read], with the
    [return b''] that follows the loop. *)
Fixpoint read_attempts (tries : nat) : M conn (list Byte.byte) :=
  match tries with
  | O => ret []
  | S remaining =>
      try_except
        ((* Using SNMPv2c, we retrieve the status of the remote device *)
         c <- get_state ;;
         oid <- getitem brother_ql_snmp_oids "snmp_get_status" ;;
         dataset <- quicksnmp_get (host (self c)) [oid] "public" ;;
         oid <- getitem brother_ql_snmp_oids "snmp_get_status" ;;
         getitem dataset oid)
        is_socket_timeout
        (fun _ => read_attempts remaining)
  end.

Definition _read (length : nat) : M conn (list Byte.byte) :=
  c <- get_state ;;
  if String.eqb (strategy (self c)) "socket_timeout"
     || String.eqb (strategy (self c)) "try_twice"
  then
    let tries : option nat := None in
    let tries := if String.eqb (strategy (self c)) "socket_timeout"
                 then Some 1%nat else tries in
    let tries := if String.eqb (strategy (self c)) "try_twice"
                 then Some 2%nat else tries in
    match tries with
    | Some tries => read_attempts tries
    | None => raise (UnboundLocalError "tries")
    end
  else raise (NotImplementedError "Unknown strategy").

End network.

Import quicksnmp network.

(** ** Vocabulary of the statements *)

Section Vocabulary.

(** The object identifier of the status field. *)
Definition status_oid : string := "1.3.6.1.4.1.2435.3.3.9.1.6.1.0".

(** The query a read makes on behalf of connection [c]. *)
Definition status_query (c : conn) : string * list string * string :=
  (host (self c), [status_oid], "public").

(** The connection after one more status query has been recorded. *)
Definition queried (c : conn) : conn :=
  {| self := self c; net := log_snmp (net c) (status_query c) |}.

(** The answer the world holds for the next query of [c]. *)
Definition next_answer (c : conn) : reply :=
  snmp_answer (net c) (length (snmp_log (net c))).

(** A connection used to exercise the statements below: the device at
    192.168.1.5 answers a status query on the [k]-th exchange when
    [answers k] says so. *)
Definition sample_conn (strat : string) (answers : nat -> reply) : conn :=
  {| self := {| read_timeout := 0.01%float; strategy := strat;
                host := "192.168.1.5";
                s := {| sock_nodelay := true;
                        sock_peer := Some ("192.168.1.5", 9100);
                        sock_timeout := Some 0.01%float |} |};
     net := {| connect_answer := fun _ _ => None;
               connect_log := [("192.168.1.5", 9100)];
               sendall_answer := fun _ => None;
               sendall_log := [];
               snmp_answer := answers;
               snmp_log := [] |} |}.

(** A device that lets the first status query time out and answers the
    later ones. *)
Definition answers_on_retry (k : nat) : reply :=
  match k with
  | O => Fails socket_timeout
  | S _ => Answer {[ status_oid := [Byte.x80; Byte.x20] ]}
  end.

(** A world in which every connection attempt is refused. *)
Definition refusing : world :=
  {| connect_answer := fun _ _ => Some ConnectionRefused;
     connect_log := [];
     sendall_answer := fun _ => None;
     sendall_log := [];
     snmp_answer := fun _ => Fails socket_timeout;
     snmp_log := [] |}.

(** A world in which every connection attempt succeeds. *)
Definition accepting : world :=
  {| connect_answer := fun _ _ => None;
     connect_log := [];
     sendall_answer := fun _ => None;
     sendall_log := [];
     snmp_answer := fun _ => Fails socket_timeout;
     snmp_log := [] |}.

(** The object [b] with the timeout of its socket set to [t]. *)
Definition retimed (b : BrotherQLBackendNetwork) (t : float)
  : BrotherQLBackendNetwork :=
  {| read_timeout := read_timeout b; strategy := strategy b;
     host := host b; s := with_timeout (s b) t |}.

(** The design document's reading of an identifier, in its own words:
    the text before and after the last occurrence of [sep], when there
    is one. *)
Fixpoint split_last (sep : ascii) (v : string) : option (string * string) :=
  match v with
  | EmptyString => None
  | String c r =>
      match split_last sep r with
      | Some (h, t) => Some (String c h, t)
      | None => if Ascii.eqb c sep then Some (EmptyString, r) else None
      end
  end.

(** "strip scheme prefix if present". *)
Definition spec_strip_scheme (v : string) : string :=
  if String.prefix "tcp://" v then slice_from 6 v else v.

(** "split host/port on the last [:]": the host. *)
Definition spec_host (v : string) : string :=
  match split_last ":" (spec_strip_scheme v) with
  | Some (h, _) => h
  | None => spec_strip_scheme v
  end.

(** The port segment that follows the host, empty when there is none. *)
Definition spec_port_segment (v : string) : string :=
  match split_last ":" (spec_strip_scheme v) with
  | Some (_, t) => t
  | None => EmptyString
  end.

(** "default port 9100": the port, decimal when a segment is given. *)
Definition spec_port (v : string) : option Z :=
  match spec_port_segment v with
  | EmptyString => Some 9100
  | String _ _ as seg => int seg
  end.

(** The entry of the result for the endpoint [printer]. *)
Definition discovered (printer : string) : device :=
  {| identifier := "tcp://" +:+ printer; instance := None |}.

(** The sources of the datagrams the dispatcher hands to the receive
    callback before it stops, when the global [startedAt] is [started]:
    it stops at the first tick on which the timer callback raises, after
    [maxResponses] responses, or at the end of the events. *)
Fixpoint delivered (started : float) (maxResponses : nat)
    (events : list dispatch_event) : list (string * Z) :=
  match maxResponses, events with
  | O, _ => []
  | _, [] => []
  | S remaining, Datagram source _ :: rest =>
      source :: delivered started remaining rest
  | S _, TimerTick timeNow :: rest =>
      if PrimFloat.ltb maxWaitForResponses (PrimFloat.sub timeNow started)
      then []
      else delivered started maxResponses rest
  end.

(** The globals with [foundPrinters] replaced by [found]. *)
Definition with_found (g : globals) (found : gset string) : globals :=
  {| startedAt := startedAt g; foundPrinters := found |}.

(** A connection whose every [sendall] times out. *)
Definition stalled_conn : conn :=
  {| self := self (sample_conn "socket_timeout" (fun _ => Fails socket_timeout));
     net := {| connect_answer := fun _ _ => None;
               connect_log := [("192.168.1.5", 9100)];
               sendall_answer := fun _ => Some socket_timeout;
               sendall_log := [];
               snmp_answer := fun _ => Fails socket_timeout;
               snmp_log := [] |} |}.

(** Two connections that a status poll cannot tell apart: same host and
    strategy, same answers to come, same queries made so far. *)
Definition same_poll (c c' : conn) : Prop :=
  host (self c) = host (self c') /\
  strategy (self c) = strategy (self c') /\
  snmp_answer (net c) = snmp_answer (net c') /\
  snmp_log (net c) = snmp_log (net c').


End Vocabulary.

(** ** Properties *)

Section Read.

Lemma status_oid_lookup :
  brother_ql_snmp_oids !! "snmp_get_status" = Some status_oid.
Proof. vm_compute. reflexivity. Qed.

Lemma read_attempts_S (n : nat) (c : conn) :
  read_attempts (S n) c =
  match next_answer c with
  | Answer dataset =>
      match dataset !! status_oid with
      | Some status => (Ok status, queried c)
      | None => (Raise (KeyError status_oid), queried c)
      end
  | Fails e =>
      if is_socket_timeout e then read_attempts n (queried c)
      else (Raise e, queried c)
  end.
Proof.
  unfold next_answer. cbn [read_attempts].
  unfold try_except, bind, get_state, getitem, quicksnmp_get.
  rewrite status_oid_lookup. unfold ret.
  destruct (snmp_answer (net c) (length (snmp_log (net c)))) as [d|e];
    [destruct (d !! status_oid)|]; reflexivity.
Qed.

(** Splits a conjunction of implications and settles the parts that
    follow from the equations at hand. *)
Ltac read_cases :=
  repeat split; intros; simplify_eq; try congruence; try reflexivity.

Lemma read_socket_timeout (n : nat) (c : conn) :
  strategy (self c) = "socket_timeout" -> _read n c = read_attempts 1 c.
Proof. intros Hs. unfold _read, bind, get_state. rewrite Hs. reflexivity. Qed.

Lemma read_try_twice (n : nat) (c : conn) :
  strategy (self c) = "try_twice" -> _read n c = read_attempts 2 c.
Proof. intros Hs. unfold _read, bind, get_state. rewrite Hs. reflexivity. Qed.

(** C5. Under the strategy [socket_timeout] a read makes exactly one
    unicast status query and leaves the object as it was; when the query
    answers the status field the read returns its bytes, and when the
    query times out the read returns the empty byte string instead of
    raising. *)
Theorem read_single_timeout (n : nat) (c : conn) :
  strategy (self c) = "socket_timeout" ->
  snd (_read n c) = queried c /\
  snmp_log (net (snd (_read n c)))
  = (snmp_log (net c) ++ [status_query c])%list /\
  (forall dataset status,
      next_answer c = Answer dataset -> dataset !! status_oid = Some status ->
      fst (_read n c) = Ok status) /\
  (next_answer c = Fails socket_timeout -> fst (_read n c) = Ok []).
Proof.
  intros Hs. rewrite (read_socket_timeout n c Hs), read_attempts_S.
  destruct (next_answer c) as [d|e] eqn:Hans.
  - destruct (d !! status_oid) as [b|] eqn:Hd; cbn; read_cases.
  - destruct e; cbn; read_cases.
Qed.

Lemma read_single_timeout_witness :
  fst (_read 32 (sample_conn "socket_timeout" (fun _ => Fails socket_timeout)))
  = Ok [].
Proof.
  apply (read_single_timeout 32
           (sample_conn "socket_timeout" (fun _ => Fails socket_timeout)));
    reflexivity.
Defined.

(** C6. Under the strategy [try_twice] a read makes one status query,
    and a second one exactly when the first timed out, never a third.
    It returns the bytes of the first attempt that answers the status
    field, and the empty byte string without raising when both attempts
    time out; a returned value comes from one of these two cases. *)
Theorem read_try_twice_attempts (n : nat) (c : conn) :
  strategy (self c) = "try_twice" ->
  let first := next_answer c in
  let second := next_answer (queried c) in
  let r := fst (_read n c) in
  let c' := snd (_read n c) in
  (first <> Fails socket_timeout -> c' = queried c) /\
  (first = Fails socket_timeout -> c' = queried (queried c)) /\
  (forall dataset status,
      first = Answer dataset -> dataset !! status_oid = Some status ->
      r = Ok status) /\
  (forall dataset status,
      first = Fails socket_timeout -> second = Answer dataset ->
      dataset !! status_oid = Some status -> r = Ok status) /\
  (first = Fails socket_timeout -> second = Fails socket_timeout ->
   r = Ok []) /\
  (forall b, r = Ok b ->
     (exists dataset,
        (first = Answer dataset \/
         first = Fails socket_timeout /\ second = Answer dataset) /\
        dataset !! status_oid = Some b) \/
     (b = [] /\ first = Fails socket_timeout /\
      second = Fails socket_timeout)).
Proof.
  intros Hs. cbv zeta.
  rewrite (read_try_twice n c Hs), read_attempts_S.
  destruct (next_answer c) as [d|e] eqn:H1.
  - destruct (d !! status_oid) as [b|] eqn:Hd; cbn; read_cases.
    left. exists d. auto.
  - destruct e; cbn [is_socket_timeout];
      [cbn; read_cases | | cbn; read_cases ..].
    rewrite read_attempts_S.
    destruct (next_answer (queried c)) as [d2|e2] eqn:H2.
    + destruct (d2 !! status_oid) as [b|] eqn:Hd; cbn; read_cases.
      left. exists d2. auto.
    + destruct e2; cbn; read_cases. right. auto.
Qed.

Lemma read_try_twice_attempts_witness :
  fst (_read 32 (sample_conn "try_twice" answers_on_retry))
  = Ok [Byte.x80; Byte.x20].
Proof.
  destruct (read_try_twice_attempts 32
              (sample_conn "try_twice" answers_on_retry) eq_refl)
    as (_ & _ & _ & Hsecond & _).
  apply (Hsecond {[ status_oid := [Byte.x80; Byte.x20] ]});
    vm_compute; reflexivity.
Defined.

(** C8. Under the strategy [select], and under any strategy other than
    [socket_timeout] and [try_twice], a read raises
    [NotImplementedError]: it makes no query, changes nothing and
    returns nothing. *)
Theorem read_select_not_implemented (n : nat) (c : conn) :
  strategy (self c) <> "socket_timeout" ->
  strategy (self c) <> "try_twice" ->
  _read n c = (Raise (NotImplementedError "Unknown strategy"), c).
Proof.
  intros H1 H2. unfold _read, bind, get_state.
  apply String.eqb_neq in H1, H2. rewrite H1, H2. reflexivity.
Qed.

Lemma read_select_not_implemented_witness :
  _read 32 (sample_conn "select" (fun _ => Answer ∅))
  = (Raise (NotImplementedError "Unknown strategy"),
     sample_conn "select" (fun _ => Answer ∅)).
Proof.
  apply (read_select_not_implemented 32
           (sample_conn "select" (fun _ => Answer ∅)));
    discriminate.
Defined.

End Read.

Section Construction.

(** With a port in range, [connect] is the network's answer. *)
Lemma socket_connect_in_range (sock : socket) (h : string) (p : Z)
    (w : world) :
  0 <= p <= 65535 ->
  socket_connect sock (h, p) w =
  match connect_answer w h p with
  | None => (Ok {| sock_nodelay := sock_nodelay sock;
                   sock_peer := Some (h, p);
                   sock_timeout := sock_timeout sock |},
             log_connect w (h, p))
  | Some reason => (Raise (OSError reason), log_connect w (h, p))
  end.
Proof.
  intros Hp. unfold socket_connect, fits_c_int. cbn [fst snd].
  replace (Z.leb (-2147483648) p) with true by lia.
  replace (Z.leb p 2147483647) with true by lia.
  replace (Z.ltb p 0) with false by lia.
  replace (Z.ltb 65535 p) with false by lia.
  destruct (connect_answer w h p) as [[| | | |errno]|]; reflexivity.
Qed.

(** A socket that [connect] returns is connected to a port in range,
    on the network's word, and the attempt is on record. *)
Lemma socket_connect_ok (sock sock' : socket) (h : string) (p : Z)
    (w w' : world) :
  socket_connect sock (h, p) w = (Ok sock', w') ->
  0 <= p <= 65535 /\ connect_answer w h p = None /\
  sock' = {| sock_nodelay := sock_nodelay sock; sock_peer := Some (h, p);
             sock_timeout := sock_timeout sock |} /\
  w' = log_connect w (h, p).
Proof.
  unfold socket_connect. cbn [fst snd].
  destruct (negb (fits_c_int p)); [discriminate|].
  destruct (is_resolution_failure (connect_answer w h p)); [discriminate|].
  destruct (Z.ltb p 0 || Z.ltb 65535 p) eqn:Hrange; [discriminate|].
  apply orb_false_iff in Hrange as [Hlo Hhi]. apply Z.ltb_ge in Hlo, Hhi.
  destruct (connect_answer w h p); [discriminate|].
  intros [= <- <-]. repeat split; lia.
Qed.

Example host_and_port_first_colon (w : world) :
  host_and_port "tcp://a:b:1" w
  = (Raise (ValueError "invalid literal for int() with base 10" None), w).
Proof. reflexivity. Qed.

(** What a successful [__init__] returns: the socket is connected to the
    target, has the no-delay option and the 10 ms read timeout. *)
Lemma init_str_connected (v : string) (w : world) (h : string) (p : Z) :
  host_and_port v w = (Ok (h, p), w) ->
  0 <= p <= 65535 ->
  connect_answer w h p = None ->
  __init__ (SpecStr v) w =
  (Ok {| read_timeout := 0.01%float; strategy := "socket_timeout";
         host := h;
         s := {| sock_nodelay := true; sock_peer := Some (h, p);
                 sock_timeout := Some 0.01%float |} |},
   log_connect w (h, p)).
Proof.
  intros Hhp Hp Hc. unfold __init__, bind. rewrite Hhp.
  unfold try_except. rewrite (socket_connect_in_range _ h p w Hp), Hc.
  reflexivity.
Qed.

(** C9. When the connection attempt to the host and port of the
    identifier fails at the socket level (refused, unreachable, name
    resolution), [__init__] raises the [ValueError] "Could not connect to
    the device." whose cause is that [OSError], after exactly one
    attempt: the log of connection attempts grows by that one entry. *)
Theorem init_connection_failure (v : string) (w : world)
    (h : string) (p : Z) (reason : os_failure) :
  host_and_port v w = (Ok (h, p), w) ->
  0 <= p <= 65535 ->
  connect_answer w h p = Some reason ->
  __init__ (SpecStr v) w =
  (Raise (ValueError "Could not connect to the device."
                     (Some (OSError reason))),
   log_connect w (h, p)) /\
  connect_log (snd (__init__ (SpecStr v) w))
  = (connect_log w ++ [(h, p)])%list.
Proof.
  intros Hhp Hp Hc.
  assert (__init__ (SpecStr v) w =
          (Raise (ValueError "Could not connect to the device."
                             (Some (OSError reason))),
           log_connect w (h, p))) as ->.
  { unfold __init__, bind. rewrite Hhp.
    unfold try_except. rewrite (socket_connect_in_range _ h p w Hp), Hc.
    reflexivity. }
  split; reflexivity.
Qed.

Lemma init_connection_failure_witness :
  __init__ (SpecStr "tcp://192.168.1.5:9101") refusing =
  (Raise (ValueError "Could not connect to the device."
                     (Some (OSError ConnectionRefused))),
   log_connect refusing ("192.168.1.5", 9101)) /\
  connect_log (snd (__init__ (SpecStr "tcp://192.168.1.5:9101") refusing))
  = [("192.168.1.5", 9101)].
Proof.
  apply (init_connection_failure "tcp://192.168.1.5:9101" refusing
           "192.168.1.5" 9101 ConnectionRefused);
    [reflexivity | lia | reflexivity].
Defined.

End Construction.

Section Write.

Lemma init_read_timeout (d : specifier) (w w' : world)
    (b : BrotherQLBackendNetwork) :
  __init__ d w = (Ok b, w') -> read_timeout b = 0.01%float.
Proof.
  destruct d as [v|fd]; [|discriminate].
  unfold __init__, bind.
  destruct (host_and_port v w) as [[[h p]|e] w1]; [|discriminate].
  unfold try_except.
  destruct (socket_connect _ (h, p) w1) as [[sock|e] w2].
  - cbn. intros [= <- _]. reflexivity.
  - destruct (is_OSError e); discriminate.
Qed.

(** C7. A write whose [sendall] goes through returns nothing; the
    record of what was sent grows by exactly one entry, all the bytes
    given, sent while the socket timeout was 10 seconds; the socket
    timeout is then the object's [read_timeout], which is 0.01 second
    for an object built by [__init__]; the other attributes of the
    object, the socket's peer and options, and the rest of the world are
    as before. *)
Theorem write_raises_then_restores_timeout (data : list Byte.byte)
    (c : conn) :
  sendall_answer (net c) (length (sendall_log (net c))) = None ->
  let c' := snd (_write data c) in
  fst (_write data c) = Ok tt /\
  sendall_log (net c')
  = (sendall_log (net c) ++ [(Some 10%float, data)])%list /\
  sock_timeout (s (self c')) = Some (read_timeout (self c)) /\
  (forall d w w',
      __init__ d w = (Ok (self c), w') ->
      sock_timeout (s (self c')) = Some 0.01%float) /\
  read_timeout (self c') = read_timeout (self c) /\
  strategy (self c') = strategy (self c) /\
  host (self c') = host (self c) /\
  sock_peer (s (self c')) = sock_peer (s (self c)) /\
  sock_nodelay (s (self c')) = sock_nodelay (s (self c)) /\
  connect_log (net c') = connect_log (net c) /\
  snmp_log (net c') = snmp_log (net c) /\
  connect_answer (net c') = connect_answer (net c) /\
  sendall_answer (net c') = sendall_answer (net c) /\
  snmp_answer (net c') = snmp_answer (net c) /\
  _write data c =
  (Ok tt,
   {| self := retimed (self c) (read_timeout (self c));
      net := log_sendall (net c) (Some 10%float, data) |}).
Proof.
  intros Hsend. cbv zeta.
  assert (_write data c =
          (Ok tt,
           {| self := retimed (self c) (read_timeout (self c));
              net := log_sendall (net c) (Some 10%float, data) |})) as ->.
  { unfold _write, bind, settimeout, modify, sendall, get_state.
    cbn [net self s with_timeout sock_timeout]. rewrite Hsend.
    reflexivity. }
  cbn [fst snd self net retimed log_sendall with_timeout read_timeout
       strategy host s sock_peer sock_nodelay sock_timeout connect_log
       sendall_log snmp_log connect_answer sendall_answer snmp_answer].
  split; [reflexivity|]. split; [reflexivity|]. split; [reflexivity|].
  split; [|repeat split].
  intros d w w' Hinit. f_equal. exact (init_read_timeout d w w' _ Hinit).
Qed.

Lemma write_raises_then_restores_timeout_witness :
  fst (_write [Byte.x1b; Byte.x40]
         (sample_conn "socket_timeout" (fun _ => Fails socket_timeout)))
  = Ok tt /\
  sendall_log
    (net (snd (_write [Byte.x1b; Byte.x40]
                 (sample_conn "socket_timeout"
                              (fun _ => Fails socket_timeout)))))
  = [(Some 10%float, [Byte.x1b; Byte.x40])] /\
  sock_timeout
    (s (self (snd (_write [Byte.x1b; Byte.x40]
                     (sample_conn "socket_timeout"
                                  (fun _ => Fails socket_timeout))))))
  = Some 0.01%float.
Proof.
  destruct (write_raises_then_restores_timeout [Byte.x1b; Byte.x40]
              (sample_conn "socket_timeout" (fun _ => Fails socket_timeout))
              eq_refl)
    as (Hret & Hsent & Htimeout & _).
  split; [exact Hret|]. split; [exact Hsent | exact Htimeout].
Defined.

(** X12. When [sendall] fails the exception reaches the caller and the
    socket is left with the 10 second timeout: the read timeout is not
    put back, and nothing is recorded as sent. *)
Lemma write_failure_keeps_long_timeout (data : list Byte.byte) (c : conn)
    (e : exn) :
  sendall_answer (net c) (length (sendall_log (net c))) = Some e ->
  _write data c =
  (Raise e, {| self := retimed (self c) 10%float; net := net c |}).
Proof.
  intros Hsend. unfold _write, bind, settimeout, modify, sendall, get_state.
  cbn [net self s with_timeout sock_timeout]. rewrite Hsend. reflexivity.
Qed.

Lemma write_failure_keeps_long_timeout_witness :
  _write [Byte.x1b; Byte.x40] stalled_conn
  = (Raise socket_timeout,
     {| self := retimed (self stalled_conn) 10%float;
        net := net stalled_conn |}).
Proof.
  apply (write_failure_keeps_long_timeout [Byte.x1b; Byte.x40]
           stalled_conn socket_timeout).
  reflexivity.
Defined.

End Write.

Section Identifier.

Lemma skip_spaces_In (c : ascii) (l : list ascii) :
  int_space c = false -> In c l -> In c (skip_spaces l).
Proof.
  intros Hc. induction l as [|a l IH]; cbn; [tauto|].
  intros [->|Hin].
  - rewrite Hc. left. reflexivity.
  - destruct (int_space a); [auto | right; exact Hin].
Qed.

Lemma scan_digits_In (c : ascii) (l : list ascii) :
  is_digit c = false -> is_underscore c = false ->
  forall acc us v rest,
    scan_digits acc us l = Some (v, rest) -> In c l -> In c rest.
Proof.
  intros Hd Hu. induction l as [|a l IH]; intros acc us v rest; cbn.
  - tauto.
  - destruct (is_digit a) eqn:Ha.
    + intros Hs [->|Hin]; [congruence | eauto].
    + destruct (is_underscore a) eqn:Hb.
      * destruct us; [discriminate|].
        intros Hs [->|Hin]; [congruence | eauto].
      * destruct us; [discriminate|]. intros [= _ <-] Hin. exact Hin.
Qed.

(** [int] accepts no string in which a colon occurs. *)
Lemma int_no_colon (v : string) (z : Z) :
  int v = Some z -> ~ In ":"%char (list_ascii_of_string v).
Proof.
  unfold int. intros Hint Hin.
  apply (skip_spaces_In ":"%char) in Hin; [|reflexivity].
  destruct (skip_spaces (list_ascii_of_string v)) as [|a l] eqn:Hl;
    [destruct Hin|].
  assert (forall sign l', In ":"%char l' ->
            match l' with
            | c :: _ =>
                if is_digit c then
                  match scan_digits 0 false l' with
                  | Some (v0, rest) =>
                      match skip_spaces rest with
                      | [] => Some (sign * v0)
                      | _ :: _ => None
                      end
                  | None => None
                  end
                else None
            | [] => None
            end = Some z -> False) as Hbody.
  { intros sign l' Hin' H. destruct l' as [|c l']; [discriminate|].
    destruct (is_digit c); [|discriminate].
    destruct (scan_digits 0 false (c :: l')) as [[v0 rest]|] eqn:Hscan;
      [|discriminate].
    pose proof (scan_digits_In ":"%char _ eq_refl eq_refl _ _ _ _
                  Hscan Hin') as Hrest.
    apply (skip_spaces_In ":"%char) in Hrest; [|reflexivity].
    destruct (skip_spaces rest); [destruct Hrest | discriminate]. }
  destruct (Ascii.eqb a "+") eqn:Hplus.
  - apply Ascii.eqb_eq in Hplus. subst a.
    destruct Hin as [Heq|Hin]; [discriminate|]. exact (Hbody _ _ Hin Hint).
  - destruct (Ascii.eqb a "-") eqn:Hminus.
    + apply Ascii.eqb_eq in Hminus. subst a.
      destruct Hin as [Heq|Hin]; [discriminate|]. exact (Hbody _ _ Hin Hint).
    + exact (Hbody _ _ Hin Hint).
Qed.

Lemma split_last_None (sep : ascii) (v : string) :
  ~ In sep (list_ascii_of_string v) -> split_last sep v = None.
Proof.
  induction v as [|c r IH]; cbn; [reflexivity|].
  intros Hin. rewrite IH by tauto.
  destruct (Ascii.eqb c sep) eqn:E; [|reflexivity].
  apply Ascii.eqb_eq in E. tauto.
Qed.

(** Cutting at the first separator is cutting at the last one when none
    occurs after the cut. *)
Lemma partition_split_last (sep : ascii) (v h m t : string) :
  partition sep v = (h, m, t) ->
  ~ In sep (list_ascii_of_string t) ->
  match split_last sep v with
  | Some (h', t') => h' = h /\ t' = t
  | None => h = v /\ t = EmptyString
  end.
Proof.
  revert h m t. induction v as [|c r IH]; intros h m t; cbn.
  - intros [= <- <- <-] _. auto.
  - destruct (Ascii.eqb c sep) eqn:E.
    + intros [= <- <- <-] Hin. rewrite (split_last_None sep r Hin). auto.
    + destruct (partition sep r) as [[h0 m0] t0] eqn:Hp.
      intros [= <- <- <-] Hin. specialize (IH h0 m0 t0 eq_refl Hin).
      destruct (split_last sep r) as [[h' t']|].
      * destruct IH as [-> ->]. auto.
      * destruct IH as [-> ->]. auto.
Qed.

(** The host and port [__init__] takes from a string are those of the
    design document's reading. *)
Lemma host_and_port_spec {S} (v : string) (st st' : S) (h : string)
    (p : Z) :
  host_and_port v st = (Ok (h, p), st') ->
  st' = st /\ h = spec_host v /\ spec_port v = Some p.
Proof.
  unfold host_and_port, spec_host, spec_port, spec_port_segment, startswith.
  fold (spec_strip_scheme v).
  destruct (partition ":" (spec_strip_scheme v)) as [[h0 m] t] eqn:Hp.
  unfold bind, ret, raise. destruct t as [|c t]; cbn [truthy].
  - intros [= <- <- <-].
    pose proof (partition_split_last _ _ _ _ _ Hp (fun H => H)) as Hs.
    destruct (split_last ":" (spec_strip_scheme v)) as [[h' t']|].
    + destruct Hs as [-> ->]. auto.
    + destruct Hs as [-> _]. auto.
  - destruct (int (String c t)) as [n|] eqn:Hint; [|discriminate].
    intros [= <- <- <-].
    pose proof (partition_split_last _ _ _ _ _ Hp (int_no_colon _ _ Hint))
      as Hs.
    destruct (split_last ":" (spec_strip_scheme v)) as [[h' t']|].
    + destruct Hs as [-> ->]. auto.
    + destruct Hs as [_ [=]].
Qed.

(** What a successful construction from a string went through. *)
Lemma init_str_inv (v : string) (w w' : world)
    (b : BrotherQLBackendNetwork) :
  __init__ (SpecStr v) w = (Ok b, w') ->
  exists h p,
    host_and_port v w = (Ok (h, p), w) /\
    host b = h /\ sock_peer (s b) = Some (h, p) /\
    w' = log_connect w (h, p).
Proof.
  unfold __init__, bind.
  destruct (host_and_port v w) as [[[h p]|e] w1] eqn:Hhp; [|discriminate].
  destruct (host_and_port_spec _ _ _ _ _ Hhp) as [-> _].
  unfold try_except.
  destruct (socket_connect _ (h, p) w) as [[sock|e] w2] eqn:Hconn.
  - apply socket_connect_ok in Hconn as (_ & _ & -> & ->).
    cbn. intros [= <- <-]. exists h, p. auto.
  - destruct (is_OSError e); discriminate.
Qed.

(** C2. For every identifier string from which [__init__] builds an
    object, the host of the object and the target of its connection are
    the ones obtained by dropping the scheme prefix and splitting the
    rest on its last colon, with port 9100 when no port segment follows
    the host; [tcp://192.168.1.5:9101] gives host 192.168.1.5 and port
    9101, and [tcp://192.168.1.5] gives host 192.168.1.5 and port 9100. *)
Theorem init_host_port_of_identifier (v : string) (w w' : world)
    (b : BrotherQLBackendNetwork) :
  __init__ (SpecStr v) w = (Ok b, w') ->
  host b = spec_host v /\
  (exists port,
      spec_port v = Some port /\
      sock_peer (s b) = Some (spec_host v, port) /\
      connect_log w' = (connect_log w ++ [(spec_host v, port)])%list) /\
  (spec_port_segment v = EmptyString ->
   sock_peer (s b) = Some (spec_host v, 9100)) /\
  host_and_port "tcp://192.168.1.5:9101" w = (Ok ("192.168.1.5", 9101), w) /\
  host_and_port "tcp://192.168.1.5" w = (Ok ("192.168.1.5", 9100), w).
Proof.
  intros Hinit.
  destruct (init_str_inv _ _ _ _ Hinit) as (h & p & Hhp & Hh & Hpeer & ->).
  destruct (host_and_port_spec _ _ _ _ _ Hhp) as (_ & -> & Hport).
  repeat split; try reflexivity; try assumption.
  - exists p. auto.
  - intros Hseg. unfold spec_port in Hport. rewrite Hseg in Hport.
    injection Hport as <-. exact Hpeer.
Qed.

Lemma init_host_port_of_identifier_witness :
  host (
    {| read_timeout := 0.01%float; strategy := "socket_timeout";
       host := "192.168.1.5";
       s := {| sock_nodelay := true;
               sock_peer := Some ("192.168.1.5", 9101);
               sock_timeout := Some 0.01%float |} |})
  = spec_host "tcp://192.168.1.5:9101".
Proof.
  apply (init_host_port_of_identifier "tcp://192.168.1.5:9101"
           accepting (log_connect accepting ("192.168.1.5", 9101))).
  reflexivity.
Defined.

End Identifier.

Section Discovery.

Lemma oid_lookups :
  brother_ql_snmp_oids !! "snmp_get_ip"
  = Some "1.3.6.1.4.1.1240.2.3.4.5.2.3.0" /\
  brother_ql_snmp_oids !! "snmp_get_status"
  = Some "1.3.6.1.4.1.2435.3.3.9.1.6.1.0".
Proof. split; vm_compute; reflexivity. Qed.

Lemma dispatch_datagram {Msg} (reqMsg : Msg) (n : nat)
    (source : string * Z) (wholeMsg : list Byte.byte)
    (rest : list dispatch_event) (g : globals) :
  broadcastSNMPReq reqMsg cbRecvFun cbTimerFun (S n)
    (Datagram source wholeMsg :: rest) g
  = broadcastSNMPReq reqMsg cbRecvFun cbTimerFun n rest
      (with_found g ({[ endpoint source ]} ∪ foundPrinters g)).
Proof. reflexivity. Qed.

Lemma dispatch_tick {Msg} (reqMsg : Msg) (n : nat) (timeNow : float)
    (rest : list dispatch_event) (g : globals) :
  broadcastSNMPReq reqMsg cbRecvFun cbTimerFun (S n)
    (TimerTick timeNow :: rest) g
  = if PrimFloat.ltb maxWaitForResponses
         (PrimFloat.sub timeNow (startedAt g))
    then (Raise TimeoutTimerExpired, g)
    else broadcastSNMPReq reqMsg cbRecvFun cbTimerFun (S n) rest g.
Proof.
  destruct (PrimFloat.ltb maxWaitForResponses
              (PrimFloat.sub timeNow (startedAt g))) eqn:Hexpired;
    cbn [broadcastSNMPReq]; unfold cbTimerFun, bind, get_state;
    rewrite Hexpired; reflexivity.
Qed.

Lemma with_found_same (g : globals) (found : gset string) :
  found = foundPrinters g -> g = with_found g found.
Proof. intros ->. destruct g; reflexivity. Qed.

(** The dispatcher loop with the two callbacks of the module: it ends
    normally or on [TimeoutTimerExpired], never touches [startedAt], and
    adds to [foundPrinters] the endpoints of the delivered datagrams. *)
Lemma dispatch_found {Msg} (reqMsg : Msg) (events : list dispatch_event) :
  forall (n : nat) (g : globals),
    (fst (broadcastSNMPReq reqMsg cbRecvFun cbTimerFun n events g) = Ok tt \/
     fst (broadcastSNMPReq reqMsg cbRecvFun cbTimerFun n events g)
     = Raise TimeoutTimerExpired) /\
    snd (broadcastSNMPReq reqMsg cbRecvFun cbTimerFun n events g)
    = with_found g
        (list_to_set (endpoint <$> delivered (startedAt g) n events)
         ∪ foundPrinters g).
Proof.
  induction events as [|ev rest IH]; intros n g.
  - destruct n; cbn; (split; [auto|]); apply with_found_same; set_solver.
  - destruct n as [|n].
    { cbn. split; [auto|]. apply with_found_same; set_solver. }
    destruct ev as [src msg|t].
    + rewrite dispatch_datagram. cbn [delivered].
      destruct (IH n (with_found g ({[endpoint src]} ∪ foundPrinters g)))
        as [IHr IHg].
      split; [exact IHr|]. rewrite IHg. unfold with_found. cbn.
      f_equal. set_solver.
    + rewrite dispatch_tick. cbn [delivered].
      destruct (PrimFloat.ltb maxWaitForResponses
                  (PrimFloat.sub t (startedAt g))).
      * cbn. split; [auto|]. apply with_found_same; set_solver.
      * exact (IH (S n) g).
Qed.

(** The whole scan: it returns, and what it returns is built from the
    endpoints of the delivered datagrams. *)
Lemma list_available_devices_eq (now : float)
    (events : list dispatch_event) (g : globals) :
  list_available_devices now events g =
  (Ok (discovered <$>
       elements (list_to_set (C := gset string)
         (endpoint <$> delivered (startedAt g) maxNumberOfResponses events))),
   with_found g
     (list_to_set
        (endpoint <$> delivered (startedAt g) maxNumberOfResponses events))).
Proof.
  unfold list_available_devices, getitem.
  destruct oid_lookups as [-> ->].
  unfold bind at 1. unfold ret at 1. unfold bind at 1. unfold ret at 1.
  unfold bind at 1. unfold modify at 1. unfold bind at 1.
  unfold try_except.
  match goal with
  | |- context [broadcastSNMPReq ?m cbRecvFun cbTimerFun ?n events ?g0] =>
      pose proof (dispatch_found m events n g0) as [Hr Hg];
      destruct (broadcastSNMPReq m cbRecvFun cbTimerFun n events g0)
        as [r g1]
  end.
  cbn [fst snd startedAt foundPrinters] in Hr, Hg. subst g1.
  assert (forall X : gset string, X ∪ ∅ = X) as Hunion by set_solver.
  rewrite Hunion.
  destruct Hr as [-> | ->]; reflexivity.
Qed.



Example scan_duplicates :
  fst (list_available_devices 1000%float
         [Datagram ("192.168.1.5", 161) []; Datagram ("192.168.1.5", 161) []]
         imported)
  = Ok [ {| identifier := "tcp://192.168.1.5:161"; instance := None |} ].
Proof. vm_compute. reflexivity. Qed.

(** C4. A scan in which no response is delivered before the timer
    callback raises its stop condition (or the responses cap or the end
    of the events is reached) returns the empty list: the result is a
    value, the [TimeoutTimerExpired] of the callback does not leave
    [list_available_devices]. *)
Theorem scan_without_responses_is_empty (now : float)
    (events : list dispatch_event) (g : globals) :
  delivered (startedAt g) maxNumberOfResponses events = [] ->
  list_available_devices now events g = (Ok [], with_found g ∅).
Proof.
  intros Hnone. rewrite list_available_devices_eq, Hnone. cbn [fmap list_fmap].
  rewrite list_to_set_nil, elements_empty. reflexivity.
Qed.

Lemma scan_without_responses_is_empty_witness :
  list_available_devices 1000%float
    [TimerTick 1000.5%float; TimerTick 1001%float] imported
  = (Ok [], with_found imported ∅).
Proof.
  apply (scan_without_responses_is_empty 1000%float
           [TimerTick 1000.5%float; TimerTick 1001%float] imported).
  reflexivity.
Defined.

(** The stop condition does reach the [try] of the scan: the dispatcher
    itself ends on the exception. *)
Example dispatcher_raises_on_tick :
  fst (broadcastSNMPReq tt cbRecvFun cbTimerFun maxNumberOfResponses
         [TimerTick 1000.5%float] imported)
  = Raise TimeoutTimerExpired.
Proof. reflexivity. Qed.

(** A scan in which only the timer ticks delivers nothing. *)
Lemma ticks_deliver_nothing (started : float) (n : nat)
    (events : list dispatch_event) :
  (forall source wholeMsg, Datagram source wholeMsg ∉ events) ->
  delivered started n events = [].
Proof.
  induction events as [|ev rest IH]; intros Hno.
  - destruct n; reflexivity.
  - destruct n as [|n]; [reflexivity|].
    destruct ev as [src msg|t].
    + exfalso. apply (Hno src msg). left.
    + cbn. destruct (PrimFloat.ltb _ _); [reflexivity|].
      apply IH. intros src msg Hin. apply (Hno src msg). right. exact Hin.
Qed.

(** The reading of the clock at the start of a scan has no part in what
    the scan does, and the global [startedAt] is the same after it. *)
Lemma scan_ignores_start_time (now now' : float)
    (events : list dispatch_event) (g : globals) :
  list_available_devices now events g = list_available_devices now' events g
  /\ startedAt (snd (list_available_devices now events g)) = startedAt g.
Proof. split; [reflexivity|]. rewrite list_available_devices_eq. reflexivity. Qed.

(** C1, on the code. The module is freshly imported and a scan starts at
    clock reading 1000: a tick at 1001, one second into the scan and so
    within [maxWaitForResponses], makes [cbTimerFun] raise, because the
    callback subtracts the global [startedAt], which is still 0; the
    printer that answers after that tick is not in the result. *)
Theorem tick_within_wait_raises :
  PrimFloat.ltb maxWaitForResponses
    (PrimFloat.sub 1001%float 1000%float) = false /\
  startedAt (snd (list_available_devices 1000%float [] imported)) = 0%float /\
  fst (cbTimerFun 1001%float
         (snd (list_available_devices 1000%float [] imported)))
  = Raise TimeoutTimerExpired /\
  fst (list_available_devices 1000%float
         [TimerTick 1001%float; Datagram ("192.168.1.5", 161) []] imported)
  = Ok [].
Proof. repeat split; vm_compute; reflexivity. Qed.

End Discovery.

Section Table.

(** C10. The table of object identifiers is not injective: the keys
    [snmp_get_netmask] and [snmp_get_mac] are different and both map to
    1.3.6.1.4.1.1240.2.3.4.5.2.4.0, so that a query made with the
    identifier of the one is the query made with the identifier of the
    other. *)
Theorem netmask_and_mac_share_oid :
  brother_ql_snmp_oids !! "snmp_get_netmask"
  = Some "1.3.6.1.4.1.1240.2.3.4.5.2.4.0" /\
  brother_ql_snmp_oids !! "snmp_get_mac"
  = Some "1.3.6.1.4.1.1240.2.3.4.5.2.4.0" /\
  "snmp_get_netmask" <> "snmp_get_mac" /\
  (forall (target credentials : string) (c : conn),
      (oid <- getitem brother_ql_snmp_oids "snmp_get_mac" ;;
       quicksnmp_get target [oid] credentials) c
      = (oid <- getitem brother_ql_snmp_oids "snmp_get_netmask" ;;
         quicksnmp_get target [oid] credentials) c).
Proof.
  assert (brother_ql_snmp_oids !! "snmp_get_netmask"
          = Some "1.3.6.1.4.1.1240.2.3.4.5.2.4.0") as Hn
    by (vm_compute; reflexivity).
  assert (brother_ql_snmp_oids !! "snmp_get_mac"
          = Some "1.3.6.1.4.1.1240.2.3.4.5.2.4.0") as Hm
    by (vm_compute; reflexivity).
  split; [exact Hn|]. split; [exact Hm|]. split; [discriminate|].
  intros target credentials c. unfold bind, getitem. rewrite Hn, Hm.
  reflexivity.
Qed.

End Table.

(** ** Further properties of the discovery scan *)

Section DiscoveryMore.

Lemma delivered_length (started : float) (events : list dispatch_event) :
  forall n : nat, (length (delivered started n events) <= n)%nat.
Proof.
  induction events as [|ev rest IH]; intros n.
  - destruct n; cbn; lia.
  - destruct n as [|n]; [cbn; lia|].
    destruct ev as [src msg|t]; cbn.
    + specialize (IH n). lia.
    + destruct (PrimFloat.ltb _ _); [cbn; lia | apply IH].
Qed.

Lemma remove_dups_length {A} `{EqDecision A} (l : list A) :
  (length (remove_dups l) <= length l)%nat.
Proof.
  induction l as [|x l IH]; cbn; [lia|].
  destruct (decide_rel elem_of x l); cbn; lia.
Qed.

(** X1. Whatever the network sends and however long it goes on, a scan
    returns at most [maxNumberOfResponses] (10) devices. *)
Theorem scan_returns_at_most_ten (now : float)
    (events : list dispatch_event) (g : globals) :
  exists devices : list device,
    fst (list_available_devices now events g) = Ok devices /\
    (length devices <= 10)%nat.
Proof.
  rewrite list_available_devices_eq. cbn [fst].
  eexists. split; [reflexivity|].
  rewrite length_fmap.
  match goal with
  | |- (length (elements (list_to_set ?l)) <= _)%nat =>
      assert (elements (list_to_set (C := gset string) l)
              ≡ₚ remove_dups l) as ->
  end.
  { apply NoDup_Permutation.
    - apply NoDup_elements.
    - apply NoDup_remove_dups.
    - intros p. rewrite elem_of_elements, elem_of_list_to_set,
        elem_of_remove_dups. reflexivity. }
  etransitivity; [apply remove_dups_length|].
  rewrite length_fmap.
  apply (delivered_length (startedAt g) events maxNumberOfResponses).
Qed.

(** X2. A scan starts from an empty [foundPrinters]: what it returns and
    the globals it leaves do not depend on the scans made before it. *)
Theorem scan_forgets_previous_scan (now1 now2 : float)
    (events1 events2 : list dispatch_event) (g : globals) :
  list_available_devices now2 events2
    (snd (list_available_devices now1 events1 g))
  = list_available_devices now2 events2 g.
Proof. rewrite !list_available_devices_eq. reflexivity. Qed.

(** X3. After a scan the global [foundPrinters] holds exactly the
    endpoints of the devices returned, and [startedAt] is what it was:
    no clock reading is ever stored in it. *)
Theorem scan_leaves_found_printers (now : float)
    (events : list dispatch_event) (g : globals) :
  exists devices : list device,
    fst (list_available_devices now events g) = Ok devices /\
    devices
    = discovered <$>
        elements (foundPrinters (snd (list_available_devices now events g)))
    /\ startedAt (snd (list_available_devices now events g)) = startedAt g.
Proof.
  rewrite list_available_devices_eq. cbn [fst snd with_found foundPrinters].
  eexists. repeat split.
Qed.

(** X4. The receive callback never raises and hands the message back
    unchanged; it adds the sender's [host:port] to [foundPrinters],
    removes nothing, and a second datagram from the same sender changes
    nothing more. *)
Theorem recv_callback_adds_once (source : string * Z)
    (msg1 msg2 : list Byte.byte) (g : globals) :
  fst (cbRecvFun source msg1 g) = Ok msg1 /\
  endpoint source ∈ foundPrinters (snd (cbRecvFun source msg1 g)) /\
  foundPrinters g ⊆ foundPrinters (snd (cbRecvFun source msg1 g)) /\
  snd (cbRecvFun source msg2 (snd (cbRecvFun source msg1 g)))
  = snd (cbRecvFun source msg1 g).
Proof.
  unfold cbRecvFun, bind, modify, ret. cbn.
  split; [reflexivity|]. split; [set_solver|]. split; [set_solver|].
  f_equal. set_solver.
Qed.

End DiscoveryMore.

(** ** Further properties of identifiers and construction *)

Section IdentifierMore.

Lemma digit_not_sign_or_space (c : ascii) :
  is_digit c = true ->
  int_space c = false /\ Ascii.eqb c "+" = false /\ Ascii.eqb c "-" = false
  /\ is_underscore c = false.
Proof.
  unfold is_digit, int_space, is_underscore. cbv zeta. intros Hd.
  apply andb_true_iff in Hd as [Hlo Hhi].
  apply Nat.leb_le in Hlo, Hhi.
  repeat split.
  - assert ((nat_of_ascii c <=? 13)%nat = false) as ->
      by (apply Nat.leb_gt; lia).
    assert ((nat_of_ascii c =? 32)%nat = false) as ->
      by (apply Nat.eqb_neq; lia).
    assert ((nat_of_ascii c =? 133)%nat = false) as ->
      by (apply Nat.eqb_neq; lia).
    assert ((nat_of_ascii c =? 160)%nat = false) as ->
      by (apply Nat.eqb_neq; lia).
    rewrite andb_false_r. reflexivity.
  - apply Ascii.eqb_neq. intros ->. vm_compute in Hlo. lia.
  - apply Ascii.eqb_neq. intros ->. vm_compute in Hlo. lia.
  - apply Ascii.eqb_neq. intros ->. vm_compute in Hhi. lia.
Qed.

Lemma pretty_N_char_digit (x : N) :
  (x < 10)%N ->
  is_digit (pretty_N_char x) = true /\
  digit_value (pretty_N_char x) = Z.of_N x.
Proof.
  intros Hx.
  assert (x = 0 \/ x = 1 \/ x = 2 \/ x = 3 \/ x = 4 \/ x = 5 \/ x = 6
          \/ x = 7 \/ x = 8 \/ x = 9)%N as Hcases by lia.
  repeat destruct Hcases as [->|Hcases]; try subst x; split; reflexivity.
Qed.

(** On a run of digits [scan_digits] reads everything, and what was read
    before is shifted by one decimal place per digit. *)
Lemma scan_digits_all (l : list ascii) :
  Forall (fun c => is_digit c = true) l ->
  exists v : Z,
    forall acc : Z,
      scan_digits acc false l = Some (acc * 10 ^ Z.of_nat (length l) + v, []).
Proof.
  induction 1 as [|c r Hc _ [v IH]].
  - exists 0. intros acc. cbn. f_equal. f_equal. lia.
  - exists (digit_value c * 10 ^ Z.of_nat (length r) + v). intros acc.
    cbn [scan_digits length]. rewrite Hc, IH. f_equal. f_equal.
    rewrite Nat2Z.inj_succ, Z.pow_succ_r by lia. lia.
Qed.

Lemma pretty_N_go_scan (x : N) :
  forall (s : string) (v : Z),
    Forall (fun c => is_digit c = true) (list_ascii_of_string s) ->
    scan_digits 0 false (list_ascii_of_string s) = Some (v, []) ->
    Forall (fun c => is_digit c = true)
           (list_ascii_of_string (pretty_N_go x s)) /\
    scan_digits 0 false (list_ascii_of_string (pretty_N_go x s))
    = Some (Z.of_N x * 10 ^ Z.of_nat (String.length s) + v, []).
Proof.
  induction (N.lt_wf_0 x) as [x _ IH]. intros s v Hs Hv.
  destruct (decide (x = 0)%N) as [->|Hx].
  - rewrite pretty_N_go_0. split; [exact Hs|]. rewrite Hv. f_equal.
  - rewrite pretty_N_go_step by lia.
    destruct (pretty_N_char_digit (x `mod` 10)%N) as [Hd Hval].
    { apply N.mod_lt. lia. }
    destruct (scan_digits_all _ Hs) as [v' Hv'].
    assert (v' = v) as ->.
    { specialize (Hv' 0). rewrite Hv in Hv'. injection Hv' as ->. lia. }
    assert (length (list_ascii_of_string s) = String.length s) as Hlen.
    { clear. induction s; cbn; congruence. }
    assert (x `div` 10 < x)%N as Hlt by (apply N.div_lt; lia).
    destruct (IH (x `div` 10)%N Hlt
                (String (pretty_N_char (x `mod` 10)) s)
                (Z.of_N (x `mod` 10) * 10 ^ Z.of_nat (String.length s) + v))
      as [Hall Hscan].
    + cbn [list_ascii_of_string]. constructor; [exact Hd | exact Hs].
    + cbn [list_ascii_of_string scan_digits]. rewrite Hd, Hv', Hval, Hlen.
      reflexivity.
    + split; [exact Hall|]. rewrite Hscan. f_equal. f_equal.
      cbn [String.length].
      rewrite Nat2Z.inj_succ, Z.pow_succ_r by lia.
      pose proof (N.div_mod x 10 ltac:(lia)) as Hdm.
      apply (f_equal Z.of_N) in Hdm.
      rewrite N2Z.inj_add, N2Z.inj_mul in Hdm.
      change (Z.of_N 10) with 10 in Hdm. rewrite Hdm. ring.
Qed.

(** [int] reads back the decimal text of a non-negative integer. *)
Lemma int_pretty (p : Z) : 0 <= p -> int (pretty p) = Some p.
Proof.
  intros Hp. destruct p as [|x|x]; [reflexivity| |lia].
  change (pretty (Z.pos x)) with (pretty_N_go (N.pos x) "").
  destruct (pretty_N_go_scan (N.pos x) "" 0) as [Hall Hscan];
    [constructor | reflexivity |].
  unfold int.
  destruct (list_ascii_of_string (pretty_N_go (N.pos x) "")) as [|c l] eqn:Hl.
  { cbn in Hscan. injection Hscan. cbn. lia. }
  pose proof (Forall_inv Hall) as Hc.
  destruct (digit_not_sign_or_space c Hc) as (Hsp & Hplus & Hminus & _).
  cbn [skip_spaces]. rewrite Hsp, Hplus, Hminus, Hc, Hscan.
  cbn [skip_spaces]. f_equal. cbn [String.length Z.of_nat]. lia.
Qed.

Lemma chars_app (a b : string) :
  list_ascii_of_string (a +:+ b)
  = (list_ascii_of_string a ++ list_ascii_of_string b)%list.
Proof.
  induction a as [|c a IH]; [reflexivity|].
  change (list_ascii_of_string (String c a +:+ b))
    with (c :: list_ascii_of_string (a +:+ b)).
  rewrite IH. reflexivity.
Qed.

Lemma partition_app (sep : ascii) (h t : string) :
  ~ In sep (list_ascii_of_string h) ->
  partition sep (h +:+ String sep t) = (h, String sep EmptyString, t).
Proof.
  induction h as [|c h IH]; intros Hin.
  - change (EmptyString +:+ String sep t) with (String sep t).
    cbn [partition]. rewrite Ascii.eqb_refl. reflexivity.
  - change (String c h +:+ String sep t)
      with (String c (h +:+ String sep t)).
    cbn [partition]. cbn in Hin.
    destruct (Ascii.eqb c sep) eqn:E.
    + apply Ascii.eqb_eq in E. tauto.
    + rewrite IH by tauto. reflexivity.
Qed.

(** The head that [partition] cuts off holds no separator. *)
Lemma partition_head (sep : ascii) (v : string) :
  ~ In sep (list_ascii_of_string (fst (fst (partition sep v)))).
Proof.
  induction v as [|c r IH]; cbn; [tauto|].
  destruct (Ascii.eqb c sep) eqn:E; cbn; [tauto|].
  destruct (partition sep r) as [[h m] t]. cbn in *.
  apply Ascii.eqb_neq in E. intros [Hc|Hin]; [congruence | tauto].
Qed.

Lemma host_and_port_state {S} (v : string) (st : S) :
  snd (host_and_port v st) = st.
Proof.
  unfold host_and_port.
  destruct (partition ":" _) as [[h m] t]. unfold bind, ret, raise.
  destruct (truthy t); [destruct (int t)|]; reflexivity.
Qed.

Lemma startswith_tcp (v : string) : startswith ("tcp://" +:+ v) "tcp://" = true.
Proof. unfold startswith. destruct v; reflexivity. Qed.

(** The identifier with scheme, host without colon and port text [t]. *)
Lemma host_and_port_tcp {S} (h t : string) (st : S) :
  ~ In ":"%char (list_ascii_of_string h) ->
  host_and_port ("tcp://" +:+ h +:+ ":" +:+ t) st
  = if truthy t
    then match int t with
         | Some n => (Ok (h, n), st)
         | None => (Raise (ValueError
                      "invalid literal for int() with base 10" None), st)
         end
    else (Ok (h, 9100), st).
Proof.
  intros Hh. unfold host_and_port.
  rewrite (startswith_tcp (h +:+ ":" +:+ t)).
  change (slice_from 6 ("tcp://" +:+ h +:+ ":" +:+ t))
    with (h +:+ String ":" t).
  rewrite (partition_app ":" h t Hh). unfold bind, ret, raise.
  destruct (truthy t); [destruct (int t)|]; reflexivity.
Qed.

(** X5. Round trip from discovery to construction: the identifier that
    [list_available_devices] builds for a responder at host [h] (without
    colon) and source port [p] is read back by [__init__] as exactly that
    host and that port, and when the connection is accepted the object is
    connected to them. *)
Theorem discovered_identifier_round_trip (h : string) (p : Z) (w : world) :
  ~ In ":"%char (list_ascii_of_string h) ->
  0 <= p <= 65535 ->
  host_and_port (identifier (discovered (endpoint (h, p)))) w
  = (Ok (h, p), w) /\
  (connect_answer w h p = None ->
   exists b : BrotherQLBackendNetwork,
     __init__ (SpecStr (identifier (discovered (endpoint (h, p))))) w
     = (Ok b, log_connect w (h, p)) /\
     host b = h /\ sock_peer (s b) = Some (h, p)).
Proof.
  intros Hh Hp.
  assert (host_and_port (identifier (discovered (endpoint (h, p)))) w
          = (Ok (h, p), w)) as Hparse.
  { unfold discovered, endpoint. cbn [identifier fst snd].
    rewrite (host_and_port_tcp h (pretty p) w Hh).
    pose proof (int_pretty p ltac:(lia)) as Hint. rewrite Hint.
    destruct (pretty p); [discriminate Hint | reflexivity]. }
  split; [exact Hparse|]. intros Hc.
  eexists. split; [apply (init_str_connected _ w h p Hparse Hp Hc)|].
  split; reflexivity.
Qed.

Lemma discovered_identifier_round_trip_witness :
  host_and_port "tcp://192.168.1.5:161" accepting
  = (Ok ("192.168.1.5", 161), accepting).
Proof.
  apply (discovered_identifier_round_trip "192.168.1.5" 161 accepting).
  - cbn. intros H. repeat (destruct H as [H|H]; [discriminate H|]). exact H.
  - lia.
Defined.

(** X6. A port text that [int] does not accept makes [__init__] raise
    the [ValueError] of [int], with no cause attached, before any
    connection is attempted: the world is untouched. *)
Theorem init_invalid_port_text (h t : string) (w : world) :
  ~ In ":"%char (list_ascii_of_string h) ->
  t <> EmptyString ->
  int t = None ->
  __init__ (SpecStr ("tcp://" +:+ h +:+ ":" +:+ t)) w
  = (Raise (ValueError "invalid literal for int() with base 10" None), w).
Proof.
  intros Hh Ht Hint. unfold __init__, bind.
  rewrite (host_and_port_tcp h t w Hh), Hint.
  destruct t; [congruence | reflexivity].
Qed.

Lemma init_invalid_port_text_witness :
  __init__ (SpecStr "tcp://192.168.1.5:91oo") refusing
  = (Raise (ValueError "invalid literal for int() with base 10" None),
     refusing).
Proof.
  apply (init_invalid_port_text "192.168.1.5" "91oo" refusing).
  - cbn. intros H. repeat (destruct H as [H|H]; [discriminate H|]). exact H.
  - discriminate.
  - reflexivity.
Defined.

(** X7. An identifier with a second colon after the host, as in
    [host:port:more] or an IPv6 literal, is never connected to: the text
    after the first colon is not an integer and [__init__] raises
    [ValueError] with the world untouched. *)
Theorem init_rejects_second_colon (h a b : string) (w : world) :
  ~ In ":"%char (list_ascii_of_string h) ->
  __init__ (SpecStr ("tcp://" +:+ h +:+ ":" +:+ a +:+ ":" +:+ b)) w
  = (Raise (ValueError "invalid literal for int() with base 10" None), w).
Proof.
  intros Hh. unfold __init__, bind.
  rewrite (host_and_port_tcp h (a +:+ ":" +:+ b) w Hh).
  assert (int (a +:+ ":" +:+ b) = None) as ->.
  { destruct (int (a +:+ ":" +:+ b)) as [z|] eqn:Hint; [|reflexivity].
    exfalso. apply (int_no_colon _ _ Hint).
    rewrite chars_app. apply in_or_app. right. left. reflexivity. }
  destruct a; reflexivity.
Qed.

Lemma init_rejects_second_colon_witness :
  __init__ (SpecStr "tcp://fe80:0:1") accepting
  = (Raise (ValueError "invalid literal for int() with base 10" None),
     accepting).
Proof.
  apply (init_rejects_second_colon "fe80" "0" "1" accepting).
  cbn. intros H. repeat (destruct H as [H|H]; [discriminate H|]). exact H.
Defined.

End IdentifierMore.

Section ConstructionMore.

(** X8. A port outside 0..65535, read from an identifier of at most
    4300 characters whose host is made of ASCII characters other than
    NUL.  When the host name resolves, or the port does not even fit a C
    [int], [__init__] raises the [OverflowError] of [connect] as it is:
    it is not an [OSError], so it is not turned into "Could not connect
    to the device.", and no connection is attempted.  When the port fits
    a C [int] and the host name does not resolve, that failure comes
    first and is wrapped like any other [OSError]. *)
Theorem init_port_out_of_range (v : string) (w : world) (h : string)
    (p : Z) :
  host_and_port v w = (Ok (h, p), w) ->
  (String.length v <= 4300)%nat ->
  Forall (fun c => (0 < nat_of_ascii c < 128)%nat) (list_ascii_of_string h) ->
  p < 0 \/ 65535 < p ->
  (connect_answer w h p <> Some NameResolutionFailure \/
   p < -2147483648 \/ 2147483647 < p ->
   __init__ (SpecStr v) w
   = (Raise (OverflowError "connect(): port must be 0-65535."), w)) /\
  (connect_answer w h p = Some NameResolutionFailure ->
   -2147483648 <= p <= 2147483647 ->
   __init__ (SpecStr v) w
   = (Raise (ValueError "Could not connect to the device."
                        (Some (OSError NameResolutionFailure))),
      log_connect w (h, p))).
Proof.
  intros Hhp _ _ Hp.
  assert (Z.ltb p 0 || Z.ltb 65535 p = true) as Hrange.
  { apply orb_true_iff. destruct Hp; [left | right]; apply Z.ltb_lt; lia. }
  split; intros Hc; [|intros Hfit]; unfold __init__, bind; rewrite Hhp;
    unfold try_except, socket_connect; cbn [fst snd].
  - destruct (fits_c_int p) eqn:Hfit; [|reflexivity]. cbn [negb].
    assert (is_resolution_failure (connect_answer w h p) = false) as ->.
    { destruct Hc as [Hc|Hc].
      - destruct (connect_answer w h p) as [[| | | |errno]|];
          try reflexivity. congruence.
      - unfold fits_c_int in Hfit. apply andb_true_iff in Hfit as [H1 H2].
        apply Z.leb_le in H1, H2. lia. }
    rewrite Hrange. reflexivity.
  - assert (fits_c_int p = true) as ->.
    { unfold fits_c_int. apply andb_true_iff.
      split; apply Z.leb_le; lia. }
    rewrite Hc. reflexivity.
Qed.

Lemma init_port_out_of_range_witness :
  __init__ (SpecStr "tcp://192.168.1.5:70000") accepting
  = (Raise (OverflowError "connect(): port must be 0-65535."), accepting).
Proof.
  apply (init_port_out_of_range "tcp://192.168.1.5:70000" accepting
           "192.168.1.5" 70000);
    [reflexivity | cbn; lia
     | repeat constructor; vm_compute; lia | lia | left; discriminate].
Defined.

(** X9. What holds of every object [__init__] returns: the strategy is
    [socket_timeout] and the read timeout 0.01 second, the socket has the
    no-delay option and that timeout, it is connected to the object's
    host on a port within 0..65535, the host holds no colon, and exactly
    that one connection was attempted. *)
Theorem init_object_invariants (d : specifier) (w w' : world)
    (b : BrotherQLBackendNetwork) :
  __init__ d w = (Ok b, w') ->
  strategy b = "socket_timeout" /\
  read_timeout b = 0.01%float /\
  sock_nodelay (s b) = true /\
  sock_timeout (s b) = Some 0.01%float /\
  ~ In ":"%char (list_ascii_of_string (host b)) /\
  exists p : Z,
    0 <= p <= 65535 /\
    sock_peer (s b) = Some (host b, p) /\
    connect_answer w (host b) p = None /\
    w' = log_connect w (host b, p).
Proof.
  destruct d as [v|fd]; [|discriminate].
  unfold __init__, bind.
  destruct (host_and_port v w) as [[[h p]|e] w1] eqn:Hhp; [|discriminate].
  pose proof (host_and_port_state v w) as Hst. rewrite Hhp in Hst.
  cbn in Hst. subst w1.
  assert (~ In ":"%char (list_ascii_of_string h)) as Hcolon.
  { revert Hhp. unfold host_and_port.
    pose proof (partition_head ":"
                  (if startswith v "tcp://" then slice_from 6 v else v))
      as Hhead.
    destruct (partition ":" _) as [[h0 m] t]. cbn in Hhead.
    unfold bind, ret, raise.
    destruct (truthy t); [destruct (int t)|]; congruence. }
  unfold try_except.
  destruct (socket_connect _ (h, p) w) as [[sock|e] w2] eqn:Hconn;
    [|destruct (is_OSError e); discriminate].
  apply socket_connect_ok in Hconn as (Hp & Hc & -> & ->).
  cbn. intros [= <- <-]. cbn.
  repeat split; try assumption. exists p. repeat split; (assumption || lia).
Qed.

Lemma init_object_invariants_witness :
  strategy
    {| read_timeout := 0.01%float; strategy := "socket_timeout";
       host := "192.168.1.5";
       s := {| sock_nodelay := true;
               sock_peer := Some ("192.168.1.5", 9100);
               sock_timeout := Some 0.01%float |} |}
  = "socket_timeout".
Proof.
  apply (init_object_invariants (SpecStr "tcp://192.168.1.5") accepting
           (log_connect accepting ("192.168.1.5", 9100))).
  reflexivity.
Defined.

(** X10. Whatever the constructor is given, it attempts at most one
    connection, sends nothing on a socket and makes no SNMP query. *)
Theorem init_touches_only_connect_log (d : specifier) (w : world) :
  (connect_log (snd (__init__ d w)) = connect_log w \/
   exists target : string * Z,
     connect_log (snd (__init__ d w)) = (connect_log w ++ [target])%list) /\
  sendall_log (snd (__init__ d w)) = sendall_log w /\
  snmp_log (snd (__init__ d w)) = snmp_log w.
Proof.
  destruct d as [v|fd]; [|cbn; auto].
  unfold __init__, bind.
  pose proof (host_and_port_state v w) as Hst.
  destruct (host_and_port v w) as [[[h p]|e] w1]; cbn in Hst; subst w1;
    [|cbn; auto].
  unfold try_except, socket_connect. cbn [fst snd].
  destruct (negb (fits_c_int p)); [cbn; auto|].
  destruct (is_resolution_failure (connect_answer w h p));
    [cbn; split; [right; eauto | auto]|].
  destruct (Z.ltb p 0 || Z.ltb 65535 p); [cbn; auto|].
  destruct (connect_answer w h p); cbn; (split; [right; eauto | auto]).
Qed.

(** X11. The scheme is optional: an identifier that does not itself
    start with [tcp://] is treated the same with and without that
    prefix. *)
Theorem init_scheme_optional (v : string) (w : world) :
  startswith v "tcp://" = false ->
  __init__ (SpecStr ("tcp://" +:+ v)) w = __init__ (SpecStr v) w.
Proof.
  intros Hv. unfold __init__, bind.
  assert (host_and_port ("tcp://" +:+ v) w = host_and_port v w) as ->;
    [|reflexivity].
  unfold host_and_port. rewrite startswith_tcp, Hv. reflexivity.
Qed.

Lemma init_scheme_optional_witness :
  __init__ (SpecStr "tcp://192.168.1.5:9101") accepting
  = __init__ (SpecStr "192.168.1.5:9101") accepting.
Proof.
  apply (init_scheme_optional "192.168.1.5:9101" accepting). reflexivity.
Defined.

End ConstructionMore.

(** ** Further properties of reading and writing *)

Section ReadWriteMore.

(** The write with its two outcomes side by side. *)
Lemma write_eq (data : list Byte.byte) (c : conn) :
  _write data c =
  match sendall_answer (net c) (length (sendall_log (net c))) with
  | None =>
      (Ok tt, {| self := retimed (self c) (read_timeout (self c));
                 net := log_sendall (net c) (Some 10%float, data) |})
  | Some e =>
      (Raise e, {| self := retimed (self c) 10%float; net := net c |})
  end.
Proof.
  unfold _write, bind, settimeout, modify, sendall, get_state.
  cbn [net self s with_timeout sock_timeout].
  destruct (sendall_answer (net c) (length (sendall_log (net c))));
    reflexivity.
Qed.

(** X13. Two writes in a row, both going through, return nothing: the
    record of what was sent grows by the two payloads, in the order
    written, each sent under the 10 second timeout, and the socket ends
    with the read timeout. *)
Theorem write_twice (data1 data2 : list Byte.byte) (c : conn) :
  sendall_answer (net c) (length (sendall_log (net c))) = None ->
  sendall_answer (net c) (S (length (sendall_log (net c)))) = None ->
  fst ((_write data1 ;;; _write data2) c) = Ok tt /\
  sendall_log (net (snd ((_write data1 ;;; _write data2) c)))
  = (sendall_log (net c)
     ++ [(Some 10%float, data1); (Some 10%float, data2)])%list /\
  sock_timeout (s (self (snd ((_write data1 ;;; _write data2) c))))
  = Some (read_timeout (self c)) /\
  (_write data1 ;;; _write data2) c =
  (Ok tt,
   {| self := retimed (self c) (read_timeout (self c));
      net := log_sendall (log_sendall (net c) (Some 10%float, data1))
                         (Some 10%float, data2) |}).
Proof.
  intros H1 H2.
  assert ((_write data1 ;;; _write data2) c =
          (Ok tt,
           {| self := retimed (self c) (read_timeout (self c));
              net := log_sendall (log_sendall (net c) (Some 10%float, data1))
                                 (Some 10%float, data2) |})) as ->.
  { unfold bind at 1. rewrite write_eq, H1, write_eq.
    cbn [net self log_sendall sendall_answer sendall_log retimed
         read_timeout].
    rewrite length_app. cbn [length]. rewrite Nat.add_1_r, H2.
    reflexivity. }
  cbn [fst snd self net retimed log_sendall with_timeout s sock_timeout
       sendall_log].
  rewrite <- app_assoc. repeat split.
Qed.

Lemma write_twice_witness :
  fst ((_write [Byte.x1b; Byte.x40] ;;; _write [Byte.x0c])
         (sample_conn "socket_timeout" (fun _ => Fails socket_timeout)))
  = Ok tt /\
  sendall_log
    (net (snd ((_write [Byte.x1b; Byte.x40] ;;; _write [Byte.x0c])
                 (sample_conn "socket_timeout"
                              (fun _ => Fails socket_timeout)))))
  = [(Some 10%float, [Byte.x1b; Byte.x40]); (Some 10%float, [Byte.x0c])].
Proof.
  destruct (write_twice [Byte.x1b; Byte.x40] [Byte.x0c]
              (sample_conn "socket_timeout" (fun _ => Fails socket_timeout))
              eq_refl eq_refl)
    as (Hret & Hsent & _).
  split; [exact Hret | exact Hsent].
Defined.

(** The state after [k] status queries. *)
Lemma queried_iter (k : nat) (c : conn) :
  self (Nat.iter k queried c) = self c /\
  connect_log (net (Nat.iter k queried c)) = connect_log (net c) /\
  sendall_log (net (Nat.iter k queried c)) = sendall_log (net c) /\
  snmp_log (net (Nat.iter k queried c))
  = (snmp_log (net c) ++ replicate k (status_query c))%list.
Proof.
  induction k as [|k (Hself & Hconn & Hsend & Hlog)].
  - cbn. rewrite app_nil_r. auto.
  - change (Nat.iter (S k) queried c) with (queried (Nat.iter k queried c)).
    set (c' := Nat.iter k queried c) in *.
    change (self (queried c')) with (self c').
    change (connect_log (net (queried c'))) with (connect_log (net c')).
    change (sendall_log (net (queried c'))) with (sendall_log (net c')).
    change (snmp_log (net (queried c')))
      with (snmp_log (net c') ++ [status_query c'])%list.
    repeat split; try assumption.
    rewrite Hlog. unfold status_query. rewrite Hself.
    rewrite <- app_assoc. f_equal.
    clear. induction k; cbn; [reflexivity|]. f_equal. assumption.
Qed.

Lemma read_attempts_queries (tries : nat) :
  forall c : conn,
    exists k : nat,
      (k <= tries)%nat /\
      snd (read_attempts tries c) = Nat.iter k queried c.
Proof.
  induction tries as [|tries IH]; intros c.
  - exists 0%nat. split; [lia | reflexivity].
  - rewrite read_attempts_S.
    destruct (next_answer c) as [d|e].
    + exists 1%nat. split; [lia|]. destruct (d !! status_oid); reflexivity.
    + destruct (is_socket_timeout e).
      * destruct (IH (queried c)) as (k & Hk & ->).
        exists (S k). split; [lia|]. rewrite Nat.iter_succ_r. reflexivity.
      * exists 1%nat. split; [lia | reflexivity].
Qed.

Lemma read_state_iter (n : nat) (c : conn) :
  exists k : nat,
    (k <= 2)%nat /\ snd (_read n c) = Nat.iter k queried c.
Proof.
  destruct (String.eqb (strategy (self c)) "socket_timeout") eqn:H1.
  - apply String.eqb_eq in H1. rewrite (read_socket_timeout n c H1).
    destruct (read_attempts_queries 1 c) as (k & Hk & Hs).
    exists k. split; [lia | exact Hs].
  - destruct (String.eqb (strategy (self c)) "try_twice") eqn:H2.
    + apply String.eqb_eq in H2. rewrite (read_try_twice n c H2).
      apply read_attempts_queries.
    + exists 0%nat. split; [lia|].
      unfold _read, bind, get_state. rewrite H1, H2. reflexivity.
Qed.

(** X14. A read never touches the object or its stream socket, under
    any strategy and whatever the outcome: the attributes, the socket,
    the record of connections and the record of sent data are as before,
    and at most two status queries were made, all for the object's host. *)
Theorem read_leaves_socket_alone (n : nat) (c : conn) :
  self (snd (_read n c)) = self c /\
  connect_log (net (snd (_read n c))) = connect_log (net c) /\
  sendall_log (net (snd (_read n c))) = sendall_log (net c) /\
  exists k : nat,
    (k <= 2)%nat /\
    snmp_log (net (snd (_read n c)))
    = (snmp_log (net c) ++ replicate k (status_query c))%list.
Proof.
  destruct (read_state_iter n c) as (k & Hk & ->).
  destruct (queried_iter k c) as (Hself & Hconn & Hsend & Hlog).
  repeat split; try assumption. exists k. split; assumption.
Qed.

(** X15. When the device answers a status query without the status
    field, a read raises [KeyError] for the status identifier; under
    [try_twice] as well there is no second attempt and no empty result. *)
Theorem read_missing_status_field (n : nat) (c : conn)
    (dataset : gmap string (list Byte.byte)) :
  strategy (self c) = "socket_timeout" \/ strategy (self c) = "try_twice" ->
  next_answer c = Answer dataset ->
  dataset !! status_oid = None ->
  _read n c = (Raise (KeyError status_oid), queried c).
Proof.
  intros [Hs|Hs] Hans Hd;
    [rewrite (read_socket_timeout n c Hs) | rewrite (read_try_twice n c Hs)];
    rewrite read_attempts_S, Hans, Hd; reflexivity.
Qed.

Lemma read_missing_status_field_witness :
  _read 32 (sample_conn "try_twice" (fun _ => Answer ∅))
  = (Raise (KeyError status_oid),
     queried (sample_conn "try_twice" (fun _ => Answer ∅))).
Proof.
  apply (read_missing_status_field 32
           (sample_conn "try_twice" (fun _ => Answer ∅)) ∅);
    [right; reflexivity | reflexivity | vm_compute; reflexivity].
Defined.

(** X16. An exception of the query other than [socket.timeout] leaves
    the read as it is, after a single attempt, under [try_twice] too:
    only time-outs are retried or turned into an empty result. *)
Theorem read_other_failure_propagates (n : nat) (c : conn) (e : exn) :
  strategy (self c) = "socket_timeout" \/ strategy (self c) = "try_twice" ->
  next_answer c = Fails e ->
  is_socket_timeout e = false ->
  _read n c = (Raise e, queried c).
Proof.
  intros [Hs|Hs] Hans He;
    [rewrite (read_socket_timeout n c Hs) | rewrite (read_try_twice n c Hs)];
    rewrite read_attempts_S, Hans, He; reflexivity.
Qed.

Lemma read_other_failure_propagates_witness :
  _read 32 (sample_conn "try_twice" (fun _ => Fails (OSError HostUnreachable)))
  = (Raise (OSError HostUnreachable),
     queried (sample_conn "try_twice"
                (fun _ => Fails (OSError HostUnreachable)))).
Proof.
  apply (read_other_failure_propagates 32
           (sample_conn "try_twice" (fun _ => Fails (OSError HostUnreachable)))
           (OSError HostUnreachable));
    [right; reflexivity | reflexivity | reflexivity].
Defined.

Lemma queried_same_poll (c c' : conn) :
  same_poll c c' ->
  next_answer c = next_answer c' /\ same_poll (queried c) (queried c').
Proof.
  intros (Hh & Hs & Ha & Hl). unfold next_answer, same_poll, queried,
    status_query. cbn. rewrite Hh, Hs, Ha, Hl. auto.
Qed.

Lemma read_attempts_same_poll (tries : nat) :
  forall c c' : conn,
    same_poll c c' ->
    fst (read_attempts tries c) = fst (read_attempts tries c') /\
    same_poll (snd (read_attempts tries c)) (snd (read_attempts tries c')).
Proof.
  induction tries as [|tries IH]; intros c c' Hcc.
  - cbn. auto.
  - rewrite !read_attempts_S.
    destruct (queried_same_poll c c' Hcc) as [<- Hq].
    destruct (next_answer c) as [d|e].
    + destruct (d !! status_oid); cbn; auto.
    + destruct (is_socket_timeout e); [apply IH; exact Hq | cbn; auto].
Qed.

Lemma read_same_poll (n : nat) (c c' : conn) :
  same_poll c c' ->
  fst (_read n c) = fst (_read n c') /\
  same_poll (snd (_read n c)) (snd (_read n c')).
Proof.
  intros Hcc. pose proof Hcc as (_ & Hs & _).
  unfold _read, bind, get_state. rewrite <- Hs.
  destruct (String.eqb (strategy (self c)) "socket_timeout"
            || String.eqb (strategy (self c)) "try_twice"); [|cbn; auto].
  destruct (if String.eqb (strategy (self c)) "try_twice"
            then Some 2%nat
            else if String.eqb (strategy (self c)) "socket_timeout"
                 then Some 1%nat else None) as [tries|] eqn:Htries.
  - apply read_attempts_same_poll. exact Hcc.
  - cbn. auto.
Qed.

Lemma queried_iter_sendall (k : nat) (c : conn) :
  sendall_answer (net (Nat.iter k queried c)) = sendall_answer (net c).
Proof. induction k as [|k IH]; [reflexivity | exact IH]. Qed.

(** X17. Reading and writing do not interfere.  What a read returns,
    and the queries it makes, are the same after a write as before it,
    whether the write went through or failed; and a write does the same
    after a read as before it. *)
Theorem read_and_write_independent (data : list Byte.byte) (n : nat)
    (c : conn) :
  fst (_read n (snd (_write data c))) = fst (_read n c) /\
  snmp_log (net (snd (_read n (snd (_write data c)))))
  = snmp_log (net (snd (_read n c))) /\
  fst (_write data (snd (_read n c))) = fst (_write data c) /\
  sendall_log (net (snd (_write data (snd (_read n c)))))
  = sendall_log (net (snd (_write data c))).
Proof.
  assert (same_poll (snd (_write data c)) c) as Hw.
  { rewrite write_eq.
    destruct (sendall_answer (net c) (length (sendall_log (net c))));
      repeat split. }
  destruct (read_same_poll n _ _ Hw) as (Hr & _ & _ & _ & Hlog).
  split; [exact Hr|]. split; [exact Hlog|].
  destruct (read_state_iter n c) as (k & _ & Hk).
  destruct (queried_iter k c) as (Hself & _ & Hsend & _).
  pose proof (queried_iter_sendall k c) as Hans.
  rewrite !write_eq, Hk, Hans, Hsend.
  destruct (sendall_answer (net c) (length (sendall_log (net c))));
    cbn; rewrite ?Hsend; auto.
Qed.

End ReadWriteMore.

Section Lifecycle.

Lemma init_strategy (d : specifier) (w w' : world)
    (b : BrotherQLBackendNetwork) :
  __init__ d w = (Ok b, w') -> strategy b = "socket_timeout".
Proof.
  destruct d as [v|fd]; [|discriminate].
  unfold __init__, bind.
  destruct (host_and_port v w) as [[[h p]|e] w1]; [|discriminate].
  unfold try_except.
  destruct (socket_connect _ (h, p) w1) as [[sock|e] w2].
  - cbn. intros [= <- _]. reflexivity.
  - destruct (is_OSError e); discriminate.
Qed.

(** X18. An object as [__init__] returns it always reads with the
    single-attempt strategy: a read makes exactly one status query,
    returns the status bytes when the field is answered and the empty
    byte string when the query times out.  The other strategies are
    reached only by changing the attribute afterwards. *)
Theorem constructed_object_reads_once (d : specifier) (w w' : world)
    (b : BrotherQLBackendNetwork) (n : nat) :
  __init__ d w = (Ok b, w') ->
  let c := {| self := b; net := w' |} in
  snd (_read n c) = queried c /\
  (forall dataset status,
      next_answer c = Answer dataset -> dataset !! status_oid = Some status ->
      fst (_read n c) = Ok status) /\
  (next_answer c = Fails socket_timeout -> fst (_read n c) = Ok []).
Proof.
  intros Hinit c.
  assert (strategy (self c) = "socket_timeout") as Hs
    by exact (init_strategy d w w' b Hinit).
  rewrite (read_socket_timeout n c Hs), read_attempts_S.
  split; [|split].
  - destruct (next_answer c) as [ds|e];
      [destruct (ds !! status_oid) | destruct e]; reflexivity.
  - intros ds status -> ->. reflexivity.
  - intros ->. reflexivity.
Qed.

Lemma constructed_object_reads_once_witness :
  fst (_read 32
         {| self :=
              {| read_timeout := 0.01%float; strategy := "socket_timeout";
                 host := "192.168.1.5";
                 s := {| sock_nodelay := true;
                         sock_peer := Some ("192.168.1.5", 9100);
                         sock_timeout := Some 0.01%float |} |};
            net := log_connect accepting ("192.168.1.5", 9100) |})
  = Ok [].
Proof.
  apply (constructed_object_reads_once (SpecStr "tcp://192.168.1.5")
           accepting (log_connect accepting ("192.168.1.5", 9100)) _ 32);
    reflexivity.
Defined.

End Lifecycle.

Section DispatchBounds.

Lemma delivered_cap (started : float)
    (responses : list ((string * Z) * list Byte.byte))
    (rest : list dispatch_event) :
  forall n : nat,
    length responses = n ->
    delivered started n
      ((uncurry Datagram <$> responses) ++ rest)%list
    = delivered started n (uncurry Datagram <$> responses).
Proof.
  induction responses as [|[src msg] responses IH]; intros n Hn.
  - cbn in Hn. subst n. cbn. destruct rest; reflexivity.
  - destruct n as [|n]; [discriminate|]. cbn in Hn. injection Hn as Hn.
    cbn. f_equal. apply IH. exact Hn.
Qed.

(** X19. The responses cap wins over everything that follows: once
    [maxNumberOfResponses] (10) datagrams have been received, the scan
    returns the same result and leaves the same globals whatever comes
    next, later responses and clock ticks alike. *)
Theorem scan_stops_at_cap (now : float)
    (responses : list ((string * Z) * list Byte.byte))
    (rest : list dispatch_event) (g : globals) :
  length responses = 10%nat ->
  list_available_devices now
    ((uncurry Datagram <$> responses) ++ rest)%list g
  = list_available_devices now (uncurry Datagram <$> responses) g.
Proof.
  intros Hlen. rewrite !list_available_devices_eq.
  rewrite (delivered_cap (startedAt g) responses rest
             maxNumberOfResponses Hlen).
  reflexivity.
Qed.

Lemma scan_stops_at_cap_witness :
  list_available_devices 1000%float
    ((uncurry Datagram <$> replicate 10 (("192.168.1.5", 161), []))
     ++ [Datagram ("192.168.1.6", 161) []])%list imported
  = list_available_devices 1000%float
      (uncurry Datagram <$> replicate 10 (("192.168.1.5", 161), []))
      imported.
Proof.
  apply (scan_stops_at_cap 1000%float
           (replicate 10 (("192.168.1.5", 161), []))
           [Datagram ("192.168.1.6", 161) []] imported).
  reflexivity.
Defined.

Lemma delivered_expired (started timeNow : float)
    (before rest : list dispatch_event) :
  PrimFloat.ltb maxWaitForResponses (PrimFloat.sub timeNow started) = true ->
  forall n : nat,
    delivered started n (before ++ TimerTick timeNow :: rest)%list
    = delivered started n before.
Proof.
  intros Hexp. induction before as [|ev before IH]; intros n.
  - destruct n as [|n]; [reflexivity|]. cbn [app delivered].
    rewrite Hexp. reflexivity.
  - destruct n as [|n]; [reflexivity|].
    destruct ev as [src msg|t]; cbn [app delivered].
    + f_equal. apply IH.
    + rewrite IH. reflexivity.
Qed.

(** X20. A tick on which the timer callback finds the wait exceeded,
    measured against the global [startedAt], ends the scan: the result
    and the globals are those of the events before that tick, and
    nothing that follows it is looked at. *)
Theorem scan_stops_at_expired_tick (now timeNow : float)
    (before rest : list dispatch_event) (g : globals) :
  PrimFloat.ltb maxWaitForResponses
    (PrimFloat.sub timeNow (startedAt g)) = true ->
  list_available_devices now (before ++ TimerTick timeNow :: rest)%list g
  = list_available_devices now before g.
Proof.
  intros Hexp. rewrite !list_available_devices_eq.
  rewrite (delivered_expired (startedAt g) timeNow before rest Hexp).
  reflexivity.
Qed.

Lemma scan_stops_at_expired_tick_witness :
  list_available_devices 1000%float
    ([Datagram ("192.168.1.5", 161) []]
     ++ TimerTick 1006%float :: [Datagram ("192.168.1.6", 161) []])%list
    {| startedAt := 1000%float; foundPrinters := ∅ |}
  = list_available_devices 1000%float
      [Datagram ("192.168.1.5", 161) []]
      {| startedAt := 1000%float; foundPrinters := ∅ |}.
Proof.
  apply (scan_stops_at_expired_tick 1000%float 1006%float
           [Datagram ("192.168.1.5", 161) []]
           [Datagram ("192.168.1.6", 161) []]
           {| startedAt := 1000%float; foundPrinters := ∅ |}).
  reflexivity.
Defined.

End DispatchBounds.

(** ** The entries of a scan *)

Section DiscoveryEntries.








End DiscoveryEntries.
